(** * Pitch Deck Assessment: the analysis pipeline of [app.py]

    A shallow embedding of the pipeline of [app.py]: text extraction
    ([extract_text_from_file]), the per-component analysis
    ([analyze_component]) with its layered reading of the model's answer, and
    the summary figures computed in [main].

    Python values are modelled as follows.
    - A [str] is the list of its code points ([N]); nothing restricts the
      text to ASCII.  The classes of characters that the code relies on
      ([str.isspace], the decimal digits of [re] and [int]) are those of
      CPython 3.11 (Unicode 14.0).
    - The value returned by [json.loads], and the dictionaries built by
      [analyze_component], are terms of [value]; a [dict] is an association
      list in insertion order.
    - A [float] is kept as the literal it was read from: no floating-point
      arithmetic is modelled.
    - A computation that may raise returns an [outcome].
    - The collaborators (the Anthropic client, PyPDF2, python-pptx,
      python-docx, [str.lower]) are parameters of the functions that call
      them; [st.error] appends to a list of reports.
    - The limits of the interpreter are not modelled: the recursion limit
      that [json.loads] meets on deeply nested text, and the limit on the
      number of digits that [int] converts. *)

From Stdlib Require Import String Ascii.
From Stdlib Require Import List NArith ZArith QArith Bool Lia.
Import ListNotations.
Close Scope Q_scope.

(** ** Python strings *)

Module PyStr.

Local Open Scope N_scope.

(** A character is its code point; a string is the list of its characters. *)
Abbreviation char := N (only parsing).
Abbreviation str := (list N) (only parsing).

(** A literal: the code points of an ASCII string. *)
Definition lit (s : string) : str :=
  map N_of_ascii (list_ascii_of_string s).

(** A literal in which every apostrophe stands for a double quote (code
    point 34); used to write JSON texts. *)
Definition qlit (s : string) : str :=
  map (fun c => if c =? 39 then 34 else c) (lit s).

Fixpoint str_eqb (a b : str) : bool :=
  match a, b with
  | [], [] => true
  | x :: a', y :: b' => (x =? y) && str_eqb a' b'
  | _, _ => false
  end.

(** [str.isspace] for one character, which is also the class [\s] of [re]
    on [str] patterns and the set removed by [str.strip()]:
    U+0009..U+000D, U+001C..U+0020, U+0085, U+00A0, U+1680, U+2000..U+200A,
    U+2028, U+2029, U+202F, U+205F, U+3000. *)
Definition isspace (c : char) : bool :=
  ((9 <=? c) && (c <=? 13)) || ((28 <=? c) && (c <=? 32))
  || (c =? 133) || (c =? 160) || (c =? 5760)
  || ((8192 <=? c) && (c <=? 8202))
  || (c =? 8232) || (c =? 8233) || (c =? 8239) || (c =? 8287)
  || (c =? 12288).

(** The decimal digits of Unicode (category Nd, Unicode 14.0 as shipped with
    CPython 3.11): each entry is the code point of a digit zero, followed by
    the digits one to nine. *)
Definition decimal_zeros : list N :=
  [48; 1632; 1776; 1984; 2406; 2534; 2662; 2790; 2918; 3046; 3174; 3302;
   3430; 3558; 3664; 3792; 3872; 4160; 4240; 6112; 6160; 6470; 6608; 6784;
   6800; 6992; 7088; 7232; 7248; 42528; 43216; 43264; 43472; 43504; 43600;
   44016; 65296; 66720; 68912; 69734; 69872; 69942; 70096; 70384; 70736;
   70864; 71248; 71360; 71472; 71904; 72016; 72784; 73040; 73120; 92768;
   92864; 93008; 120782; 120792; 120802; 120812; 120822; 123200; 123632;
   125264; 130032].

(** The value of a decimal digit ([Py_UNICODE_TODECIMAL]); [None] for any
    other character. *)
Definition todecimal (c : char) : option N :=
  match find (fun z => (z <=? c) && (c <? z + 10)) decimal_zeros with
  | Some z => Some (c - z)
  | None => None
  end.

(** The class [\d] of [re] on [str] patterns. *)
Definition isdecimal (c : char) : bool :=
  match todecimal c with Some _ => true | None => false end.

Fixpoint lstrip (s : str) : str :=
  match s with
  | c :: s' => if isspace c then lstrip s' else s
  | [] => []
  end.

Definition rstrip (s : str) : str := rev (lstrip (rev s)).

(** [s.strip()] *)
Definition strip (s : str) : str := lstrip (rstrip s).

(** [s.startswith(p)] *)
Fixpoint startswith (p s : str) : bool :=
  match p, s with
  | [], _ => true
  | x :: p', y :: s' => (x =? y) && startswith p' s'
  | _ :: _, [] => false
  end.

(** [s.endswith(p)] *)
Definition endswith (p s : str) : bool := startswith (rev p) (rev s).

(** A slice bound: a negative index counts from the end, and the result is
    clipped to [0, len]. *)
Definition slice_bound (len : nat) (i : Z) : nat :=
  if (i <? 0)%Z then Z.to_nat (Z.of_nat len + i)
  else Nat.min (Z.to_nat i) len.

(** [s[start:stop]] *)
Definition slice (s : str) (start stop : Z) : str :=
  let a := slice_bound (length s) start in
  let b := slice_bound (length s) stop in
  firstn (b - a) (skipn a s).

(** [str(n)] for a natural number: its decimal digits. *)
Fixpoint digits_of (fuel : nat) (n : N) (acc : str) : str :=
  match fuel with
  | O => acc
  | S fuel' =>
      let acc' := (48 + n mod 10) :: acc in
      if n / 10 =? 0 then acc' else digits_of fuel' (n / 10) acc'
  end.

Definition str_of_N (n : N) : str := digits_of (S (N.to_nat (N.log2 n))) n [].

(** [r] is what is left of [s] after some prefix. *)
Definition suffix (r s : str) : Prop := exists m, s = m ++ r.

(** [r] is what is left of [s] after a prefix that ends with a closing
    brace (code point 125). *)
Definition closes (r s : str) : Prop := exists m, s = m ++ 125 :: r.


End PyStr.

Export PyStr.

(** ** Exceptions and outcomes *)

Module Exn.

(** The exceptions of the pipeline.  [Foreign] is an exception raised by a
    collaborator (the API client, a document library): [is_exception] tells
    whether its class derives from [Exception] (as opposed to
    [BaseException] only, such as [KeyboardInterrupt]) and [rendered] is
    [str(e)]. *)
Inductive exn : Type :=
| KeyError (key : str)
| IndexError
| ValueError (arg : str)
| Foreign (is_exception : bool) (rendered : str).

(** [isinstance(e, Exception)] *)
Definition isinstance_Exception (e : exn) : bool :=
  match e with
  | Foreign b _ => b
  | _ => true
  end.

(** [repr] of a string that needs no escaping. *)
Definition repr_plain (s : str) : str := lit "'" ++ s ++ lit "'".

(** [str(e)] *)
Definition str_of_exn (e : exn) : str :=
  match e with
  | KeyError k => repr_plain k
  | IndexError => lit "list index out of range"
  | ValueError a => lit "invalid literal for int() with base 10: " ++ repr_plain a
  | Foreign _ r => r
  end.

Inductive outcome (A : Type) : Type :=
| Ok (a : A)
| Raise (e : exn).

#[global] Arguments Ok {A} a.
#[global] Arguments Raise {A} e.

Definition bind {A B : Type} (m : outcome A) (k : A -> outcome B) : outcome B :=
  match m with
  | Ok a => k a
  | Raise e => Raise e
  end.

End Exn.

Export Exn.

Notation "x <- m ;; k" := (bind m (fun x => k))
  (at level 61, m at next level, right associativity).

(** ** Values and [json.loads] *)

Module Json.

Local Open Scope N_scope.

(** The Python values that [json.loads] produces.  A [float] keeps the text
    of its literal; [VNaN] and [VInf] are the constants [NaN], [Infinity] and
    [-Infinity], which [json.loads] accepts. *)
Unset Elimination Schemes.

Inductive value : Type :=
| VNone
| VBool (b : bool)
| VInt (z : Z)
| VFloat (literal : str)
| VNaN
| VInf (negative : bool)
| VStr (s : str)
| VList (l : list value)
| VDict (d : list (str * value)).

Set Elimination Schemes.

Abbreviation dict := (list (list N * value)) (only parsing).

(** [d.get(k)] *)
Fixpoint dict_get (k : str) (d : dict) : option value :=
  match d with
  | [] => None
  | (k', v) :: d' => if str_eqb k k' then Some v else dict_get k d'
  end.

(** [d[k] = v]: an existing key keeps its position. *)
Fixpoint dict_set (d : dict) (k : str) (v : value) : dict :=
  match d with
  | [] => [(k, v)]
  | (k', v') :: d' =>
      if str_eqb k k' then (k', v) :: d' else (k', v') :: dict_set d' k v
  end.

(** [v[k]] for a value [v]; [None] when [v] is no dictionary or lacks [k]. *)
Definition item (k : str) (v : value) : option value :=
  match v with
  | VDict d => dict_get k d
  | _ => None
  end.

(** JSON whitespace: space, tab, line feed, carriage return. *)
Definition is_json_ws (c : char) : bool :=
  (c =? 32) || (c =? 9) || (c =? 10) || (c =? 13).

Fixpoint skip_ws (s : str) : str :=
  match s with
  | c :: s' => if is_json_ws c then skip_ws s' else s
  | [] => []
  end.

Definition is_digit09 (c : char) : bool := (48 <=? c) && (c <=? 57).

(** The longest prefix of characters satisfying [p], and the rest. *)
Fixpoint span (p : char -> bool) (s : str) : str * str :=
  match s with
  | c :: s' =>
      if p c then let (a, b) := span p s' in (c :: a, b) else ([], s)
  | [] => ([], [])
  end.

Definition hexval (c : char) : option N :=
  if (48 <=? c) && (c <=? 57) then Some (c - 48)
  else if (97 <=? c) && (c <=? 102) then Some (c - 87)
  else if (65 <=? c) && (c <=? 70) then Some (c - 55)
  else None.

Definition hex4 (a b c d : char) : option N :=
  match hexval a, hexval b, hexval c, hexval d with
  | Some x, Some y, Some z, Some w => Some (((x * 16 + y) * 16 + z) * 16 + w)
  | _, _, _, _ => None
  end.

Definition is_high_surrogate (c : N) : bool := (55296 <=? c) && (c <=? 56319).
Definition is_low_surrogate (c : N) : bool := (56320 <=? c) && (c <=? 57343).
Definition join_surrogates (hi lo : N) : N :=
  65536 + (hi - 55296) * 1024 + (lo - 56320).

(** The one-letter escapes after a backslash: quote, backslash, slash, and
    the letters b, f, n, r, t. *)
Definition unescape (c : char) : option char :=
  if c =? 34 then Some 34
  else if c =? 92 then Some 92
  else if c =? 47 then Some 47
  else if c =? 98 then Some 8
  else if c =? 102 then Some 12
  else if c =? 110 then Some 10
  else if c =? 114 then Some 13
  else if c =? 116 then Some 9
  else None.

(** [scanstring] in strict mode, entered after the opening quote: the
    decoded string and the text after the closing quote.  [None] when the
    decoder raises (unterminated string, control character, bad escape).
    A [\uXXXX] escape of a high surrogate followed by one of a low surrogate
    yields the single character they encode. *)
Fixpoint scanstring (s : str) (acc : str) : option (str * str) :=
  match s with
  | [] => None
  | c :: r =>
      if c =? 34 then Some (rev acc, r)
      else if c =? 92 then
        match r with
        | [] => None
        | e :: r1 =>
            if e =? 117 then
              match r1 with
              | h1 :: h2 :: h3 :: h4 :: r2 =>
                  match hex4 h1 h2 h3 h4 with
                  | None => None
                  | Some cp =>
                      if is_high_surrogate cp then
                        match r2 with
                        | b :: u :: g1 :: g2 :: g3 :: g4 :: r3 =>
                            if (b =? 92) && (u =? 117) then
                              match hex4 g1 g2 g3 g4 with
                              | None => None
                              | Some lo =>
                                  if is_low_surrogate lo
                                  then scanstring r3 (join_surrogates cp lo :: acc)
                                  else scanstring r2 (cp :: acc)
                              end
                            else scanstring r2 (cp :: acc)
                        | _ => scanstring r2 (cp :: acc)
                        end
                      else scanstring r2 (cp :: acc)
                  end
              | _ => None
              end
            else
              match unescape e with
              | Some c' => scanstring r1 (c' :: acc)
              | None => None
              end
        end
      else if c <=? 31 then None
      else scanstring r (c :: acc)
  end.

(** The value of a run of ASCII digits. *)
Definition nat_value (ds : str) : Z :=
  fold_left (fun acc c => (acc * 10 + Z.of_N (c - 48))%Z) ds 0%Z.

(** The parts of a number: an optional minus sign; then either 0 or a digit
    from 1 to 9 followed by any digits; then optionally a dot and at least
    one digit; then optionally e or E, an optional sign and at least one
    digit.  Each function returns the characters of its part and the text
    after them. *)
Definition sign_part (s : str) : str * str :=
  match s with
  | c :: r => if c =? 45 then ([c], r) else ([], s)
  | [] => ([], s)
  end.

Definition int_part (s : str) : option (str * str) :=
  match s with
  | c :: r =>
      if c =? 48 then Some ([c], r)
      else if (49 <=? c) && (c <=? 57)
      then let (ds, r') := span is_digit09 r in Some (c :: ds, r')
      else None
  | [] => None
  end.

Definition frac_part (s : str) : str * str :=
  match s with
  | dot :: d :: r =>
      if (dot =? 46) && is_digit09 d
      then let (ds, r') := span is_digit09 r in (dot :: d :: ds, r')
      else ([], s)
  | _ => ([], s)
  end.

Definition exp_sign (s : str) : str * str :=
  match s with
  | x :: t => if (x =? 45) || (x =? 43) then ([x], t) else ([], s)
  | [] => ([], s)
  end.

Definition exp_part (s : str) : str * str :=
  match s with
  | e :: r =>
      if (e =? 101) || (e =? 69) then
        let (sg, r') := exp_sign r in
        let (ds, r'') := span is_digit09 r' in
        match ds with
        | [] => ([], s)
        | _ :: _ => (e :: sg ++ ds, r'')
        end
      else ([], s)
  | [] => ([], s)
  end.

(** A number: an [int] when it has neither fraction nor exponent, a [float]
    otherwise. *)
Definition match_number (s : str) : option (value * str) :=
  let (sign, s1) := sign_part s in
  match int_part s1 with
  | None => None
  | Some (ip, s2) =>
      let (frac, s3) := frac_part s2 in
      let (expo, s4) := exp_part s3 in
      match frac, expo with
      | [], [] =>
          Some (VInt (match sign with
                      | [] => nat_value ip
                      | _ :: _ => - nat_value ip
                      end)%Z, s4)
      | _, _ => Some (VFloat (sign ++ ip ++ frac ++ expo), s4)
      end
  end.

(** The values that are neither string, object nor array: the constants and
    the numbers. *)
Definition scan_atom (s : str) : option (value * str) :=
  if startswith (lit "null") s then Some (VNone, skipn 4 s)
  else if startswith (lit "true") s then Some (VBool true, skipn 4 s)
  else if startswith (lit "false") s then Some (VBool false, skipn 5 s)
  else if startswith (lit "NaN") s then Some (VNaN, skipn 3 s)
  else if startswith (lit "Infinity") s then Some (VInf false, skipn 8 s)
  else if startswith (lit "-Infinity") s then Some (VInf true, skipn 9 s)
  else match_number s.

(** [scan_once]: one JSON value at the head of [s] and the text after it;
    [None] when the decoder raises.  [parse_pairs] reads the members of a
    non-empty object from its first key on, [parse_items] the elements of a
    non-empty array.  Between two decrements of the fuel at least one
    character is consumed by every second call, so a fuel above twice the
    length of [s] is never exhausted. *)
Fixpoint scan_once (fuel : nat) (s : str) : option (value * str) :=
  match fuel with
  | O => None
  | S fuel' =>
      match s with
      | [] => None
      | c :: r =>
          if c =? 34 then
            match scanstring r [] with
            | Some (t, r') => Some (VStr t, r')
            | None => None
            end
          else if c =? 123 then
            match skip_ws r with
            | c1 :: r1 =>
                if c1 =? 125 then Some (VDict [], r1)
                else parse_pairs fuel' [] (c1 :: r1)
            | [] => None
            end
          else if c =? 91 then
            match skip_ws r with
            | c1 :: r1 =>
                if c1 =? 93 then Some (VList [], r1)
                else parse_items fuel' [] (c1 :: r1)
            | [] => None
            end
          else scan_atom s
      end
  end

with parse_pairs (fuel : nat) (acc : dict) (s : str) : option (value * str) :=
  match fuel with
  | O => None
  | S fuel' =>
      match s with
      | [] => None
      | q :: r =>
          if q =? 34 then
            match scanstring r [] with
            | None => None
            | Some (key, r1) =>
                match skip_ws r1 with
                | colon :: r2 =>
                    if colon =? 58 then
                      match scan_once fuel' (skip_ws r2) with
                      | None => None
                      | Some (v, r3) =>
                          let acc' := dict_set acc key v in
                          match skip_ws r3 with
                          | c :: r4 =>
                              if c =? 125 then Some (VDict acc', r4)
                              else if c =? 44
                              then parse_pairs fuel' acc' (skip_ws r4)
                              else None
                          | [] => None
                          end
                      end
                    else None
                | [] => None
                end
            end
          else None
      end
  end

with parse_items (fuel : nat) (acc : list value) (s : str) : option (value * str) :=
  match fuel with
  | O => None
  | S fuel' =>
      match scan_once fuel' s with
      | None => None
      | Some (v, r1) =>
          match skip_ws r1 with
          | c :: r2 =>
              if c =? 93 then Some (VList (acc ++ [v]), r2)
              else if c =? 44
              then parse_items fuel' (acc ++ [v]) (skip_ws r2)
              else None
          | [] => None
          end
      end
  end.

(** [json.loads(s)] for a [str]; [None] when it raises [JSONDecodeError].
    Leading and trailing JSON whitespace is skipped and nothing else may
    follow the value. *)
Definition json_loads (s : str) : option value :=
  match scan_once (S (2 * length s)) (skip_ws s) with
  | Some (v, r) =>
      match skip_ws r with
      | [] => Some v
      | _ :: _ => None
      end
  | None => None
  end.

End Json.

Export Json.

(** ** Regular expressions

    The two patterns of [analyze_component] are sequences of single
    characters or character classes, each taken once or repeated greedily;
    one repeated class is the capturing group.  [search] is [re.search]
    restricted to such patterns, and yields [group(1)] of the leftmost
    match. *)

Module Re.

Inductive atom : Type :=
| Chr (c : char)       (* the character c *)
| Space                (* \s *)
| Digit                (* \d *)
| NotChr (c : char).   (* [^c] *)

Inductive quant : Type :=
| One                  (* exactly once *)
| Star                 (* zero or more, greedy *)
| Plus.                (* one or more, greedy *)

Record piece : Type := Piece {
  p_atom : atom;
  p_quant : quant;
  p_group : bool       (* inside the capturing group *)
}.

Abbreviation regex := (list piece) (only parsing).

Definition atom_matches (a : atom) (c : char) : bool :=
  match a with
  | Chr x => (c =? x)%N
  | Space => isspace c
  | Digit => isdecimal c
  | NotChr x => negb (c =? x)%N
  end.

(** The text of group 1 after the piece [p] has consumed [c]. *)
Definition keep (p : piece) (c : char) (cap : str) : str :=
  if p_group p then cap ++ [c] else cap.

(** A greedy repetition of the piece [p], followed by the rest of the
    pattern [rest]: it first takes one more character, and gives it back when
    what follows fails.  [cap] is the text captured so far. *)
Fixpoint repeat (p : piece) (rest : str -> str -> option str)
    (s : str) (cap : str) : option str :=
  match s with
  | c :: s' =>
      if atom_matches (p_atom p) c then
        match repeat p rest s' (keep p c cap) with
        | Some g => Some g
        | None => rest s cap
        end
      else rest s cap
  | [] => rest [] cap
  end.

(** A match of [re] at the start of [s], by backtracking; the result is the
    text of group 1. *)
Fixpoint match_here (re : regex) (s : str) (cap : str) : option str :=
  match re with
  | [] => Some cap
  | p :: re' =>
      match p_quant p with
      | One =>
          match s with
          | c :: s' =>
              if atom_matches (p_atom p) c
              then match_here re' s' (keep p c cap) else None
          | [] => None
          end
      | Star => repeat p (match_here re') s cap
      | Plus =>
          match s with
          | c :: s' =>
              if atom_matches (p_atom p) c
              then repeat p (match_here re') s' (keep p c cap) else None
          | [] => None
          end
      end
  end.

(** [re.search(re, s)]: [Some (m.group(1))] for the leftmost match [m],
    [None] when there is none. *)
Fixpoint search (re : regex) (s : str) : option str :=
  match match_here re s [] with
  | Some g => Some g
  | None =>
      match s with
      | [] => None
      | _ :: s' => search re s'
      end
  end.

(** A literal run of characters. *)
Definition chars (s : str) : regex :=
  map (fun c => Piece (Chr c) One false) s.


(** Every character that the piece [p] accepts for the group satisfies
    [P]. *)
Definition group_in (P : char -> bool) (p : piece) : Prop :=
  p_group p = true -> forall c, atom_matches (p_atom p) c = true -> P c = true.

(** The least number of characters that the group of a pattern holds. *)
Fixpoint min_capture (re : regex) : nat :=
  match re with
  | [] => 0
  | p :: re' =>
      (if p_group p then match p_quant p with Star => 0 | _ => 1 end else 0)
      + min_capture re'
  end.

End Re.

(** ** The prompt table *)

Module Prompts.

(** The ten prompts of [BUSINESS_MODEL_CANVAS_PROMPTS], in the order of the
    dictionary literal.  Each text runs over three lines; the second and third
    start with four blanks. *)
Definition BUSINESS_MODEL_CANVAS_PROMPTS : list (str * str) :=
  [(lit "overview",
    lit "You are an expert pitch deck consultant. Analyze the provided pitch deck and give an overall assessment of the entire business model. 
    Focus on coherence between different components, overall viability, and how compelling the business case is.
    Provide a score between 0-100 and specific, actionable feedback.");
   (lit "key_partners",
    lit "You are an expert pitch deck consultant. Analyze the provided pitch deck and assess the Key Partners section.
    Evaluate how well the pitch identifies strategic partners, supplier relationships, and the mutual value creation with these partners.
    Provide a score between 0-100 and specific, actionable feedback.");
   (lit "key_activities",
    lit "You are an expert pitch deck consultant. Analyze the provided pitch deck and assess the Key Activities section.
    Evaluate how well the pitch articulates the most important activities the business must perform to make its business model work.
    Provide a score between 0-100 and specific, actionable feedback.");
   (lit "key_resources",
    lit "You are an expert pitch deck consultant. Analyze the provided pitch deck and assess the Key Resources section.
    Evaluate how well the pitch describes the most important assets required to make the business model work.
    Provide a score between 0-100 and specific, actionable feedback.");
   (lit "value_proposition",
    lit "You are an expert pitch deck consultant. Analyze the provided pitch deck and assess the Value Proposition section.
    Evaluate how well the pitch articulates the bundle of products and services that create value for specific customer segments.
    Provide a score between 0-100 and specific, actionable feedback.");
   (lit "customer_relationships",
    lit "You are an expert pitch deck consultant. Analyze the provided pitch deck and assess the Customer Relationships section.
    Evaluate how well the pitch describes the types of relationships the company establishes with specific customer segments.
    Provide a score between 0-100 and specific, actionable feedback.");
   (lit "channels",
    lit "You are an expert pitch deck consultant. Analyze the provided pitch deck and assess the Channels section.
    Evaluate how well the pitch describes how the company communicates with and reaches its customer segments to deliver the value proposition.
    Provide a score between 0-100 and specific, actionable feedback.");
   (lit "customer_segments",
    lit "You are an expert pitch deck consultant. Analyze the provided pitch deck and assess the Customer Segments section.
    Evaluate how well the pitch defines the different groups of people or organizations the business aims to reach and serve.
    Provide a score between 0-100 and specific, actionable feedback.");
   (lit "cost_structure",
    lit "You are an expert pitch deck consultant. Analyze the provided pitch deck and assess the Cost Structure section.
    Evaluate how well the pitch describes all costs incurred to operate the business model.
    Provide a score between 0-100 and specific, actionable feedback.");
   (lit "revenue_streams",
    lit "You are an expert pitch deck consultant. Analyze the provided pitch deck and assess the Revenue Streams section.
    Evaluate how well the pitch describes how the company generates cash from each customer segment and the overall pricing strategy.
    Provide a score between 0-100 and specific, actionable feedback.")].

(** [RESPONSE_FORMAT] *)
Definition RESPONSE_FORMAT : str :=
  qlit "
Respond in JSON format with the following structure:
{
  'score': [numerical score between 0-100],
  'feedback': '[detailed feedback with specific suggestions for improvement]'
}
".

End Prompts.

(** ** The component analyzer *)

Module Analyzer.

Import Re.
Local Open Scope N_scope.

(** Lookup in a dictionary from [str] to [str]. *)
Fixpoint dict_get_str (k : str) (d : list (str * str)) : option str :=
  match d with
  | [] => None
  | (k', v) :: d' => if str_eqb k k' then Some v else dict_get_str k d'
  end.

(** [int(s)] for a capture of [\d+]: the number written with the decimal
    digits of [s].  [int] also reads signs, surrounding blanks and
    underscores, which a [\d+] capture never holds; every other string is a
    [ValueError] here. *)
Definition py_int (s : str) : outcome Z :=
  match s with
  | [] => Raise (ValueError s)
  | _ :: _ =>
      match
        fold_left
          (fun acc c =>
             match acc, todecimal c with
             | Some a, Some d => Some (a * 10 + Z.of_N d)%Z
             | _, _ => None
             end) s (Some 0%Z)
      with
      | Some n => Ok n
      | None => Raise (ValueError s)
      end
  end.

(** The pattern of lines 152 and 170: the word score between double quotes,
    blanks, a colon, blanks, and the group: one or more decimal digits. *)
Definition score_re : regex :=
  chars (qlit "'score'")
  ++ [Piece Space Star false; Piece (Chr 58) One false; Piece Space Star false;
      Piece Digit Plus true].

(** The pattern of lines 153 and 171: the word feedback between double
    quotes, blanks, a colon, blanks, a double quote, the group (one or more
    characters other than a double quote) and a double quote. *)
Definition feedback_re : regex :=
  chars (qlit "'feedback'")
  ++ [Piece Space Star false; Piece (Chr 58) One false; Piece Space Star false;
      Piece (Chr 34) One false; Piece (NotChr 34) Plus true;
      Piece (Chr 34) One false].

(** The dictionary with the keys score and feedback, in this order. *)
Definition result (score : Z) (feedback : str) : value :=
  VDict [(lit "score", VInt score); (lit "feedback", VStr feedback)].

(** Lines 142-144: the text with a surrounding markdown fence removed. *)
Definition json_match_of (response_text : str) : str :=
  let json_match := strip response_text in
  if startswith (lit "```json") json_match && endswith (lit "```") json_match
  then strip (slice json_match 7 (-3))
  else json_match.

(** Line 147: the test that guards [json.loads]. *)
Definition looks_like_json (json_match : str) : bool :=
  startswith (lit "{") json_match && endswith (lit "}") json_match.

(** Lines 161-165: the last resort. *)
Definition last_resort (response_text : str) : value :=
  result 50
    (lit "Analysis could not be processed properly. Here's the raw response: "
     ++ firstn 200 response_text ++ lit "...").

(** Lines 140-176 of [analyze_component], the inner [try] statement: the
    reading of the response text.  [json.loads] raising [JSONDecodeError]
    ([None] here) enters the handler of lines 167-176; a [ValueError] of
    [int] would leave the statement. *)
Definition interpret (response_text : str) : outcome value :=
  let json_match := json_match_of response_text in
  if looks_like_json json_match then
    match json_loads json_match with
    | Some v => Ok v
    | None =>
        let score_match := search score_re response_text in
        let feedback_match := search feedback_re response_text in
        score <- match score_match with
                 | Some g => py_int g
                 | None => Ok 50%Z
                 end ;;
        Ok (result score
              match feedback_match with
              | Some g => g
              | None => lit "Failed to parse Claude's response."
              end)
    end
  else
    let score_match := search score_re response_text in
    let feedback_match := search feedback_re response_text in
    match score_match, feedback_match with
    | Some gs, Some gf => score <- py_int gs ;; Ok (result score gf)
    | _, _ => Ok (last_resort response_text)
    end.

(** *** Predicates of the specification *)



(** The fence markers tested on line 143. *)
Definition fence_open : str := lit "```json".
Definition fence_close : str := lit "```".


(** *** The call to the model *)

(** A request to the messages API, and the reply: the texts of the content
    blocks of the message. *)
Record request : Type := Request {
  model : str;
  max_tokens : N;
  messages : list (str * str)     (* role, content *)
}.

Abbreviation message := (list (list N)) (only parsing).

(** The f-string of line 132. *)
Definition user_content (prompt content : str) : str :=
  prompt ++ [10; 10] ++ lit "Here is the pitch deck content to analyze:"
  ++ [10; 10] ++ content ++ [10; 10] ++ Prompts.RESPONSE_FORMAT.

(** [message.content[0].text] *)
Definition first_text (m : message) : outcome str :=
  match m with
  | t :: _ => Ok t
  | [] => Raise IndexError
  end.

(** Lines 180-183: the result returned when the analysis raised. *)
Definition failure_result (component : str) : value :=
  result 0 (lit "Failed to analyze " ++ component ++ lit ". Please try again.").

(** Line 179: the text handed to [st.error]. *)
Definition error_report (component : str) (e : exn) : str :=
  lit "Error analyzing " ++ component ++ lit ": " ++ str_of_exn e.

(** Lines 127-134: the request sent for a prompt and a content. *)
Definition request_of (prompt content : str) : request :=
  Request (lit "claude-3-opus-20240229") 1000
    [(lit "user", user_content prompt content)].

(** Line 215: the components, [list(BUSINESS_MODEL_CANVAS_PROMPTS.keys())]. *)
Definition components : list str :=
  map fst Prompts.BUSINESS_MODEL_CANVAS_PROMPTS.

(** [analyze_component(component, content)].  [create] stands for
    [client.messages.create]; [errors] is the list of texts shown by
    [st.error] so far, and the second component of the outcome is that list
    afterwards.  The lookup of the prompt stands before the [try]: its
    [KeyError] is not handled.  The handler of line 178 takes every instance
    of [Exception]. *)
Definition analyze_component
    (create : request -> outcome message)
    (component content : str) (errors : list str)
  : outcome value * list str :=
  match dict_get_str component Prompts.BUSINESS_MODEL_CANVAS_PROMPTS with
  | None => (Raise (KeyError component), errors)
  | Some prompt =>
      let attempt :=
        message <- create (request_of prompt content) ;;
        response_text <- first_text message ;;
        interpret response_text in
      match attempt with
      | Ok v => (Ok v, errors)
      | Raise e =>
          if isinstance_Exception e
          then (Ok (failure_result component),
                errors ++ [error_report component e])
          else (Raise e, errors)
      end
  end.

End Analyzer.

(** ** Text extraction *)

Module Extractor.

Local Open Scope N_scope.

Abbreviation bytes := (list Byte.byte) (only parsing).

(** The uploaded file: its name and its content. *)
Record UploadedFile : Type := {
  name : str;
  getvalue : bytes
}.

(** [p.rfind(c)]: the index of the last [c] in [p], or -1. *)
Fixpoint rfind_from (c : char) (p : str) (i last : Z) : Z :=
  match p with
  | [] => last
  | x :: p' => rfind_from c p' (i + 1)%Z (if x =? c then i else last)
  end.

Definition rfind (c : char) (p : str) : Z := rfind_from c p 0%Z (-1)%Z.

(** [os.path.splitext(p)] of [posixpath]: the extension starts at the last
    dot of the last path component, unless only dots stand before it. *)
Definition splitext (p : str) : str * str :=
  let sepIndex := rfind 47 p in
  let dotIndex := rfind 46 p in
  if (sepIndex <? dotIndex)%Z then
    if existsb (fun x => negb (x =? 46)) (slice p (sepIndex + 1)%Z dotIndex)
    then (firstn (Z.to_nat dotIndex) p, skipn (Z.to_nat dotIndex) p)
    else (p, [])
  else (p, []).

(** The temporary files that exist, by path. *)
Abbreviation files := (list N) (only parsing).

(** [tempfile.NamedTemporaryFile(delete=False)]: a path not in use. *)
Definition fresh (fs : files) : N := N.succ (fold_right N.max 0 fs).

(** [os.unlink(path)] *)
Definition unlink (path : N) (fs : files) : files :=
  filter (fun p => negb (p =? path)) fs.

(** Lines 90-93: the pages of a PDF; a page is the outcome of its
    [extract_text()]. *)
Fixpoint pdf_pages (pages : list (outcome str)) (page_num : N)
    (extracted_text : str) : outcome str :=
  match pages with
  | [] => Ok extracted_text
  | page :: rest =>
      let extracted_text :=
        extracted_text
        ++ [10] ++ lit "--- Page " ++ str_of_N (page_num + 1) ++ lit " ---" ++ [10] in
      text <- page ;;
      pdf_pages rest (page_num + 1) (extracted_text ++ text)
  end.

(** Lines 99-101: the shapes of a slide; a shape is [Some] of its [text]
    attribute, or [None] when it has none. *)
Fixpoint slide_shapes (shapes : list (option str)) (extracted_text : str) : str :=
  match shapes with
  | [] => extracted_text
  | shape :: rest =>
      match shape with
      | Some (c :: t) => slide_shapes rest (extracted_text ++ (c :: t) ++ [10])
      | _ => slide_shapes rest extracted_text
      end
  end.

(** Lines 97-101: the slides of a presentation. *)
Fixpoint pptx_slides (slides : list (list (option str))) (slide_num : N)
    (extracted_text : str) : str :=
  match slides with
  | [] => extracted_text
  | slide :: rest =>
      let extracted_text :=
        extracted_text
        ++ [10] ++ lit "--- Slide " ++ str_of_N (slide_num + 1) ++ lit " ---" ++ [10] in
      pptx_slides rest (slide_num + 1) (slide_shapes slide extracted_text)
  end.

(** Lines 105-106: the paragraphs of a document. *)
Fixpoint docx_paragraphs (paragraphs : list str) (extracted_text : str) : str :=
  match paragraphs with
  | [] => extracted_text
  | para :: rest => docx_paragraphs rest (extracted_text ++ para ++ [10])
  end.

Section Collaborators.

(** [str.lower] *)
Variable lower : str -> str.

(** [PyPDF2.PdfReader] on a file of the given content: the pages, or the
    exception it raises. *)
Variable PdfReader : bytes -> outcome (list (outcome str)).

(** [pptx.Presentation]: the slides, each the list of its shapes. *)
Variable Presentation : bytes -> outcome (list (list (option str))).

(** [docx.Document]: the texts of the paragraphs. *)
Variable Document : bytes -> outcome (list str).

(** Lines 86-112: the body of the [try] statement. *)
Definition extract_body (file_extension : str) (data : bytes) : outcome str :=
  if str_eqb file_extension (lit ".pdf") then
    pages <- PdfReader data ;;
    pdf_pages pages 0 []
  else if str_eqb file_extension (lit ".pptx") then
    slides <- Presentation data ;;
    Ok (pptx_slides slides 0 [])
  else if str_eqb file_extension (lit ".docx") then
    paragraphs <- Document data ;;
    Ok (docx_paragraphs paragraphs [])
  else if str_eqb file_extension (lit ".ppt") then
    Ok (lit "PPT format has limited extraction capabilities. Consider converting to PPTX for better results.")
  else
    Ok (lit "Unsupported file format: " ++ file_extension).

(** [extract_text_from_file(uploaded_file)].  The temporary file holds the
    content of the upload; the [finally] clause removes it whether the body
    returned or raised, and an exception of the body then leaves the
    function: the [try] statement has no handler. *)
Definition extract_text_from_file (uploaded_file : UploadedFile) (fs : files)
  : outcome str * files :=
  let file_extension := lower (snd (splitext (name uploaded_file))) in
  let temp_file_path := fresh fs in
  let fs := temp_file_path :: fs in
  let body := extract_body file_extension (getvalue uploaded_file) in
  (body, unlink temp_file_path fs).

End Collaborators.

(** Lower case for ASCII letters only; [str.lower] agrees with it on ASCII
    text. *)
Definition ascii_lower (s : str) : str :=
  map (fun c => if (65 <=? c) && (c <=? 90) then c + 32 else c) s.

End Extractor.

(** ** The summary figures of the dashboard *)

Module Summary.

(** [component["score"]] when it is an [int] ([bool] included); [None] when
    the subscript raises or the score is of another type. *)
Definition score_of (component : value) : option Z :=
  match item (lit "score") component with
  | Some (VInt z) => Some z
  | Some (VBool b) => Some (if b then 1 else 0)%Z
  | _ => None
  end.

(** The scores of [results.values()], when all are integers. *)
Fixpoint scores_of (results : list (str * value)) : option (list Z) :=
  match results with
  | [] => Some []
  | (_, component) :: rest =>
      match score_of component, scores_of rest with
      | Some z, Some zs => Some (z :: zs)
      | _, _ => None
      end
  end.

(** Line 257: the sum of the scores over their number, as an exact
    fraction (the source divides in floating point); [None] for no score at
    all, where the division raises. *)
Definition avg_score (scores : list Z) : option Q :=
  match scores with
  | [] => None
  | _ :: _ =>
      Some (inject_Z (fold_left Z.add scores 0%Z)
            / inject_Z (Z.of_nat (length scores)))%Q
  end.

(** Line 265: the number of scores of 80 or more. *)
Definition strengths (scores : list Z) : nat :=
  length (filter (fun score => (80 <=? score)%Z) scores).

(** Line 269: the number of scores under 70. *)
Definition weaknesses (scores : list Z) : nat :=
  length (filter (fun score => (score <? 70)%Z) scores).

End Summary.

(** ** The analysis of a whole deck *)

Module Pipeline.

Import Analyzer.

(** Line 212: the text shown in the preview; the conditional expression
    spans the whole argument. *)
Definition preview (extracted_text : str) : str :=
  if (1000 <? length extracted_text)%nat
  then firstn 1000 extracted_text ++ lit "..."
  else extracted_text.

(** Lines 225-231: the loop over the components still to analyze, with the
    dictionary [results] built so far.  An exception that leaves
    [analyze_component] leaves the loop. *)
Fixpoint analyze_all (create : request -> outcome message)
    (todo : list str) (content : str)
    (results : dict) (errors : list str) : outcome dict * list str :=
  match todo with
  | [] => (Ok results, errors)
  | component :: rest =>
      match analyze_component create component content errors with
      | (Ok v, errors') =>
          analyze_all create rest content (dict_set results component v) errors'
      | (Raise e, errors') => (Raise e, errors')
      end
  end.

(** The reports that a component adds when it is analyzed alone. *)
Definition standalone_reports (create : request -> outcome message)
    (content component : str) : list str :=
  snd (analyze_component create component content []).

(** Lines 215-241: the results of a deck, from an empty dictionary. *)
Definition analyze_deck (create : request -> outcome message)
    (content : str) (errors : list str) : outcome dict * list str :=
  analyze_all create components content [] errors.

End Pipeline.

(** ** The dashboard and the detailed view *)

Module Report.

Import Analyzer Summary.

(** Lines 289 and 374: the colour of a score. *)
Definition score_color (score : Z) : str :=
  if (80 <=? score)%Z then lit "green"
  else if (70 <=? score)%Z then lit "orange"
  else lit "red".

(** Line 396: the improvement priority of a score. *)
Definition priority (score : Z) : str :=
  if (80 <=? score)%Z then lit "Low"
  else if (70 <=? score)%Z then lit "Medium"
  else lit "High".

(** Line 397: the colour of a priority. *)
Definition priority_color (priority : str) : str :=
  if str_eqb priority (lit "Low") then lit "green"
  else if str_eqb priority (lit "Medium") then lit "orange"
  else lit "red".

(** The key of line 345 and 351 for every item of [results.items()]:
    [x[1]["score"]], computed for all items before the sort; [None] as for
    [scores_of]. *)
Fixpoint keyed (results : list (str * value))
  : option (list (Z * (str * value))) :=
  match results with
  | [] => Some []
  | (component, details) :: rest =>
      match score_of details, keyed rest with
      | Some z, Some l => Some ((z, (component, details)) :: l)
      | _, _ => None
      end
  end.

(** A stable sort by increasing key: an item goes before the items that
    follow it in the list and have the same key. *)
Fixpoint insert_by_key (x : Z * (str * value)) (l : list (Z * (str * value)))
  : list (Z * (str * value)) :=
  match l with
  | [] => [x]
  | y :: l' =>
      if (fst y <? fst x)%Z then y :: insert_by_key x l' else x :: y :: l'
  end.

Fixpoint sort_by_key (l : list (Z * (str * value))) : list (Z * (str * value)) :=
  match l with
  | [] => []
  | x :: l' => insert_by_key x (sort_by_key l')
  end.

(** [sorted(results.items(), key=..., reverse=reverse)]: with [reverse] the
    list is reversed, sorted by increasing key and reversed again, so that
    items of equal key keep their order. *)
Definition sorted_by_score (reverse : bool) (results : list (str * value))
  : option (list (Z * (str * value))) :=
  match keyed results with
  | None => None
  | Some l =>
      Some (if reverse then rev (sort_by_key (rev l)) else sort_by_key l)
  end.



End Report.

(** ** Shapes of a slide *)

Module Shapes.

(** The test of line 100: the shape has a [text] attribute, and the text is
    not empty. *)
Definition has_text (shape : option (list N)) : bool :=
  match shape with
  | Some (_ :: _) => true
  | _ => false
  end.

End Shapes.

(** ** The export of the results *)

Module Dumps.

Local Open Scope N_scope.

(** A hexadecimal digit, in lower case. *)
Definition hexdigit (k : N) : char := if k <? 10 then 48 + k else 87 + k.

(** The escape of a code unit: a backslash, the letter u and four
    hexadecimal digits. *)
Definition u_escape (n : N) : str :=
  [92; 117; hexdigit (N.shiftr n 12 mod 16); hexdigit (N.shiftr n 8 mod 16);
   hexdigit (N.shiftr n 4 mod 16); hexdigit (n mod 16)].

(** The text that stands for one character inside a string, with
    [ensure_ascii]: the backslash and the double quote get a backslash; the
    characters b, f, n, r, t after a backslash stand for the control
    characters 8, 12, 10, 13, 9; the other characters from the blank to the
    tilde stand for themselves; every other character is escaped, as one
    code unit below 65536 and as a surrogate pair above. *)
Definition escape_char (c : char) : str :=
  if c =? 92 then [92; 92]
  else if c =? 34 then [92; 34]
  else if c =? 8 then [92; 98]
  else if c =? 12 then [92; 102]
  else if c =? 10 then [92; 110]
  else if c =? 13 then [92; 114]
  else if c =? 9 then [92; 116]
  else if (32 <=? c) && (c <=? 126) then [c]
  else if c <? 65536 then u_escape c
  else
    let n := c - 65536 in
    u_escape (N.lor 55296 (N.land (N.shiftr n 10) 1023))
    ++ u_escape (N.lor 56320 (N.land n 1023)).

(** [py_encode_basestring_ascii] *)
Definition encode_string (s : str) : str :=
  34 :: flat_map escape_char s ++ [34].

(** [int.__repr__] *)
Definition repr_int (z : Z) : str :=
  if (z <? 0)%Z then 45 :: str_of_N (Z.abs_N z) else str_of_N (Z.abs_N z).

(** A line feed and the indentation of a level, two blanks for each. *)
Definition newline_indent (level : nat) : str :=
  10 :: List.repeat 32 (2 * level).

(** The texts of the items, each after [first] for the first one and after
    [separator] for the others. *)
Fixpoint join_items (separator : str) (items : list str) : str :=
  match items with
  | [] => []
  | [item] => item
  | item :: rest => item ++ separator ++ join_items separator rest
  end.

(** The texts of the elements of a list; [None] as soon as one of them has
    none. *)
Definition traverse {A B : Type} (f : A -> option B) : list A -> option (list B) :=
  fix go (l : list A) : option (list B) :=
    match l with
    | [] => Some []
    | x :: l' =>
        match f x, go l' with
        | Some t, Some ts => Some (t :: ts)
        | _, _ => None
        end
    end.

(** A member of an object: the key, a colon, a blank and the value. *)
Definition member_text (k : str) (t : str) : str :=
  encode_string k ++ [58; 32] ++ t.

(** [_iterencode] with an indentation of two blanks, the separators comma
    and colon-blank, and [ensure_ascii]: the text of a value at a nesting
    level.  A [float] is printed from its binary value, which is not
    modelled: [None]. *)
Fixpoint iterencode (level : nat) (o : value) : option str :=
  match o with
  | VStr s => Some (encode_string s)
  | VNone => Some (lit "null")
  | VBool true => Some (lit "true")
  | VBool false => Some (lit "false")
  | VInt z => Some (repr_int z)
  | VFloat _ => None
  | VNaN => Some (lit "NaN")
  | VInf false => Some (lit "Infinity")
  | VInf true => Some (lit "-Infinity")
  | VList [] => Some (lit "[]")
  | VList l =>
      match traverse (iterencode (S level)) l with
      | Some ts =>
          Some (91 :: newline_indent (S level)
                ++ join_items (44 :: newline_indent (S level)) ts
                ++ newline_indent level ++ [93])
      | None => None
      end
  | VDict [] => Some (lit "{}")
  | VDict d =>
      match
        traverse (fun kv => option_map (member_text (fst kv))
                              (iterencode (S level) (snd kv))) d
      with
      | Some ts =>
          Some (123 :: newline_indent (S level)
                ++ join_items (44 :: newline_indent (S level)) ts
                ++ newline_indent level ++ [125])
      | None => None
      end
  end.

(** Line 433: [json.dumps(results, indent=2)] for the dictionary of the
    results. *)
Definition json_dumps (o : value) : option str := iterencode 0 o.

(** *** The values that the export keeps *)





(** A character of ASCII. *)
Definition is_ascii (c : char) : bool := c <? 128.

(** What may follow the text of a number: nothing, or a character that
    continues neither its digits nor a fraction nor an exponent. *)
Definition ends_number (rest : str) : bool :=
  match rest with
  | [] => true
  | c :: _ => negb (is_digit09 c || (c =? 46) || (c =? 101) || (c =? 69))
  end.



End Dumps.

(** ** The definitions at work *)

Module Examples.

Import Re Analyzer Extractor Summary.

Example strip_blanks :
  strip ([160; 10]%N ++ lit "{ }" ++ [32; 8195; 9]%N) = lit "{ }".
Proof. reflexivity. Qed.

Example slice_fence : slice (lit "```json{}```") 7 (-3) = lit "{}".
Proof. reflexivity. Qed.

Example slice_short : slice (lit "abcdefgh") 7 (-3) = [].
Proof. reflexivity. Qed.

Example loads_object :
  json_loads (qlit " {'a': [1, -2, true, null], 'b': {'c': 'x\ny'}} ")
  = Some (VDict [(lit "a", VList [VInt 1; VInt (-2); VBool true; VNone]);
                 (lit "b", VDict [(lit "c", VStr (lit "x" ++ [10%N] ++ lit "y"))])]).
Proof. vm_compute. reflexivity. Qed.

Example loads_repeated_key :
  json_loads (qlit "{'score': 1, 'feedback': 'a', 'score': 2}")
  = Some (VDict [(lit "score", VInt 2); (lit "feedback", VStr (lit "a"))]).
Proof. vm_compute. reflexivity. Qed.

Example loads_surrogate_pair :
  json_loads (qlit "'\ud83d\ude00'") = Some (VStr [128512%N]).
Proof. vm_compute. reflexivity. Qed.

Example loads_float : json_loads (lit "-1.5e3") = Some (VFloat (lit "-1.5e3")).
Proof. vm_compute. reflexivity. Qed.

Example loads_rejects :
  map json_loads
    [qlit "{'a': 1,}"; qlit "{'a': 01}"; lit "{'a': 1}"; qlit "{'a': 1} x";
     qlit "{'a': '" ++ [9%N] ++ qlit "'}"; qlit "[1 2]"; lit "{"; lit ""]
  = [None; None; None; None; None; None; None; None].
Proof. vm_compute. reflexivity. Qed.

Example search_score :
  search score_re (qlit "a 'score' x, 'score' :" ++ [160%N] ++ lit "407b")
  = Some (lit "407").
Proof. vm_compute. reflexivity. Qed.

Example search_score_arabic_digits :
  option_map py_int (search score_re (qlit "'score': " ++ [1636; 1634]%N))
  = Some (Ok 42%Z).
Proof. vm_compute. reflexivity. Qed.

Example search_feedback_skips_empty :
  search feedback_re (qlit "'feedback': '' then 'feedback':'two" ++ [10%N] ++ qlit "lines'")
  = Some (lit "two" ++ [10%N] ++ lit "lines").
Proof. vm_compute. reflexivity. Qed.

Example interpret_fenced :
  interpret (lit "```json" ++ [10%N] ++ qlit "{'score': 87, 'feedback': 'Good traction'}"
             ++ [10%N] ++ lit "```" ++ [10%N])
  = Ok (result 87 (lit "Good traction")).
Proof. vm_compute. reflexivity. Qed.

Example analyze_success :
  analyze_component (fun _ => Ok [qlit "{'score': 64, 'feedback': 'Fair'}"])
    (lit "channels") (lit "deck") []
  = (Ok (result 64 (lit "Fair")), []).
Proof. vm_compute. reflexivity. Qed.

Example analyze_empty_message :
  analyze_component (fun _ => Ok []) (lit "channels") (lit "deck") []
  = (Ok (result 0 (lit "Failed to analyze channels. Please try again.")),
     [lit "Error analyzing channels: list index out of range"]).
Proof. vm_compute. reflexivity. Qed.

Example analyze_unknown_component :
  analyze_component (fun _ => Ok []) (lit "team") (lit "deck") []
  = (Raise (KeyError (lit "team")), []).
Proof. vm_compute. reflexivity. Qed.

Example analyze_interrupt :
  analyze_component (fun _ => Raise (Foreign false (lit "")))
    (lit "channels") (lit "deck") []
  = (Raise (Foreign false (lit "")), []).
Proof. vm_compute. reflexivity. Qed.

Example request_sent :
  length (user_content (lit "P") (lit "C")) = 230
  /\ model (request_of (lit "P") (lit "C")) = lit "claude-3-opus-20240229"
  /\ max_tokens (request_of (lit "P") (lit "C")) = 1000%N.
Proof. vm_compute. repeat split; reflexivity. Qed.

Example splitext_names :
  map (fun p => snd (splitext (lit p)))
    ["deck.pdf"; "a.b/c"; ".bashrc"; "...a.b"; "x."; "archive.tar.GZ"; "noext"]%string
  = [lit ".pdf"; []; []; lit ".b"; lit "."; lit ".GZ"; []].
Proof. vm_compute. reflexivity. Qed.

Example extract_pdf :
  extract_text_from_file ascii_lower
    (fun _ => Ok [Ok (lit "Problem"); Ok []; Ok (lit "Team")])
    (fun _ => Ok []) (fun _ => Ok [])
    {| name := lit "Deck.PDF"; getvalue := [] |} [1; 2]%N
  = (Ok ([10%N] ++ lit "--- Page 1 ---" ++ [10%N] ++ lit "Problem"
         ++ [10%N] ++ lit "--- Page 2 ---" ++ [10%N]
         ++ [10%N] ++ lit "--- Page 3 ---" ++ [10%N] ++ lit "Team"),
     [1; 2]%N).
Proof. vm_compute. reflexivity. Qed.

Example extract_pptx :
  extract_text_from_file ascii_lower (fun _ => Ok [])
    (fun _ => Ok [[Some (lit "Title"); None; Some []; Some (lit "Body")]; []])
    (fun _ => Ok [])
    {| name := lit "deck.pptx"; getvalue := [] |} []
  = (Ok ([10%N] ++ lit "--- Slide 1 ---" ++ [10%N] ++ lit "Title" ++ [10%N]
         ++ lit "Body" ++ [10%N]
         ++ [10%N] ++ lit "--- Slide 2 ---" ++ [10%N]),
     []).
Proof. vm_compute. reflexivity. Qed.

Example extract_page_failure :
  extract_text_from_file ascii_lower
    (fun _ => Ok [Ok (lit "Problem"); Raise (Foreign true (lit "bad stream"))])
    (fun _ => Ok []) (fun _ => Ok [])
    {| name := lit "deck.pdf"; getvalue := [] |} [7%N]
  = (Raise (Foreign true (lit "bad stream")), [7%N]).
Proof. vm_compute. reflexivity. Qed.

Example scores_of_report :
  scores_of [(lit "overview", result 72 (lit "ok"));
             (lit "channels", VDict [(lit "feedback", VStr (lit "no score"))])]
  = None.
Proof. vm_compute. reflexivity. Qed.

End Examples.

(** * Properties *)

(** ** Strings *)

Lemma str_eqb_eq (a b : str) : str_eqb a b = true <-> a = b.
Proof.
  revert b; induction a as [|x a IH]; intros [|y b]; simpl; split;
    try congruence; try reflexivity.
  - intros H. apply andb_true_iff in H as [H1 H2].
    apply N.eqb_eq in H1. apply IH in H2. congruence.
  - intros H. injection H as -> ->. rewrite N.eqb_refl. simpl. now apply IH.
Qed.

Lemma str_eqb_refl (a : str) : str_eqb a a = true.
Proof. now apply str_eqb_eq. Qed.

Lemma str_eqb_neq (a b : str) : a <> b -> str_eqb a b = false.
Proof.
  intros H. destruct (str_eqb a b) eqn:E; [|reflexivity].
  apply str_eqb_eq in E. contradiction.
Qed.

Lemma startswith_app (p s : str) : startswith p (p ++ s) = true.
Proof.
  induction p as [|x p IH]; simpl; [reflexivity|].
  now rewrite N.eqb_refl.
Qed.

Lemma endswith_app (p s : str) : endswith p (s ++ p) = true.
Proof. unfold endswith. rewrite rev_app_distr. apply startswith_app. Qed.

(** ** The capture of a pattern *)

Module ReFacts.

Import Re.

Section Capture.

Variable P : char -> bool.

Let all_P (s : str) : Prop := Forall (fun c => P c = true) s.

Lemma keep_all p c cap :
  group_in P p -> atom_matches (p_atom p) c = true -> all_P cap -> all_P (keep p c cap).
Proof.
  intros Hp Hc Hcap. unfold keep. destruct (p_group p) eqn:G; [|assumption].
  apply Forall_app. split; [assumption|]. constructor; [|constructor].
  now apply Hp.
Qed.

Lemma repeat_all p rest :
  group_in P p ->
  (forall s cap g, rest s cap = Some g -> all_P cap -> all_P g) ->
  forall s cap g, repeat p rest s cap = Some g -> all_P cap -> all_P g.
Proof.
  intros Hp Hrest s. induction s as [|c s IH]; intros cap g H Hcap; simpl in H.
  - eapply Hrest; eassumption.
  - destruct (atom_matches (p_atom p) c) eqn:Hc.
    + destruct (repeat p rest s (keep p c cap)) as [g'|] eqn:Hr.
      * injection H as <-. eapply IH; [eassumption|]. now apply keep_all.
      * eapply Hrest; eassumption.
    + eapply Hrest; eassumption.
Qed.

Lemma match_here_all re :
  Forall (group_in P) re ->
  forall s cap g, match_here re s cap = Some g -> all_P cap -> all_P g.
Proof.
  induction re as [|p re IH]; intros Hre s cap g H Hcap; simpl in H.
  - now injection H as <-.
  - inversion Hre as [|? ? Hp Hre']; subst.
    destruct (p_quant p).
    + destruct s as [|c s]; [discriminate|].
      destruct (atom_matches (p_atom p) c) eqn:Hc; [|discriminate].
      eapply IH; [assumption|eassumption|]. now apply keep_all.
    + apply (repeat_all p (match_here re) Hp) with (s := s) (cap := cap);
        [|assumption|assumption].
      intros; eapply IH; eassumption.
    + destruct s as [|c s]; [discriminate|].
      destruct (atom_matches (p_atom p) c) eqn:Hc; [|discriminate].
      apply (repeat_all p (match_here re) Hp) with (s := s) (cap := keep p c cap);
        [|assumption|now apply keep_all].
      intros; eapply IH; eassumption.
Qed.

End Capture.

Lemma keep_length p c cap :
  length (keep p c cap) = (if p_group p then 1 else 0) + length cap.
Proof.
  unfold keep. destruct (p_group p); [|reflexivity].
  rewrite length_app. simpl. lia.
Qed.

Lemma repeat_length p rest n :
  (forall s cap g, rest s cap = Some g -> length cap + n <= length g) ->
  forall s cap g, repeat p rest s cap = Some g -> length cap + n <= length g.
Proof.
  intros Hrest s. induction s as [|c s IH]; intros cap g H; simpl in H.
  - now apply Hrest in H.
  - destruct (atom_matches (p_atom p) c).
    + destruct (repeat p rest s (keep p c cap)) as [g'|] eqn:Hr.
      * injection H as <-. apply IH in Hr. rewrite keep_length in Hr. lia.
      * now apply Hrest in H.
    + now apply Hrest in H.
Qed.

Lemma match_here_length re :
  forall s cap g, match_here re s cap = Some g ->
  length cap + min_capture re <= length g.
Proof.
  induction re as [|p re IH]; intros s cap g H; simpl in H |- *.
  - injection H as <-. lia.
  - destruct (p_quant p).
    + destruct s as [|c s]; [discriminate|].
      destruct (atom_matches (p_atom p) c); [|discriminate].
      apply IH in H. rewrite keep_length in H. destruct (p_group p); lia.
    + assert (length cap + min_capture re <= length g).
      { eapply repeat_length; [|eassumption]. intros; now apply IH in H0. }
      destruct (p_group p); lia.
    + destruct s as [|c s]; [discriminate|].
      destruct (atom_matches (p_atom p) c); [|discriminate].
      assert (length (keep p c cap) + min_capture re <= length g).
      { eapply repeat_length; [|eassumption]. intros; now apply IH in H0. }
      rewrite keep_length in H0. destruct (p_group p); lia.
Qed.

Lemma search_match re s g :
  search re s = Some g -> exists s', match_here re s' [] = Some g.
Proof.
  induction s as [|c s IH]; simpl.
  - destruct (match_here re [] []) eqn:E; [|discriminate].
    intros H; injection H as <-. eauto.
  - destruct (match_here re (c :: s) []) eqn:E.
    + intros H; injection H as <-. eauto.
    + apply IH.
Qed.

End ReFacts.

(** ** The decoder never runs out of fuel *)

Module JsonFacts.

Lemma skip_ws_length (s : str) : length (skip_ws s) <= length s.
Proof.
  induction s as [|c s IH]; simpl; [lia|].
  destruct (is_json_ws c); simpl; lia.
Qed.

Lemma span_length p (s a b : str) : span p s = (a, b) -> length b <= length s.
Proof.
  revert a b. induction s as [|c s IH]; intros a b; simpl.
  - intros H; injection H as <- <-. simpl; lia.
  - destruct (p c).
    + destruct (span p s) as [a' b'] eqn:E. intros H; injection H as <- <-.
      specialize (IH _ _ eq_refl). lia.
    + intros H; injection H as <- <-. simpl; lia.
Qed.

Lemma scanstring_length (n : nat) :
  forall s acc t r, length s <= n ->
  scanstring s acc = Some (t, r) -> length r < length s.
Proof.
  induction n as [|n IH]; intros s acc t r Hn H.
  - destruct s; [discriminate|simpl in Hn; lia].
  - destruct s as [|c s]; [discriminate|].
    cbn [length] in Hn |- *. cbn [scanstring] in H.
    destruct (c =? 34)%N; [injection H as <- <-; lia|].
    destruct (c =? 92)%N.
    + destruct s as [|e r1]; [discriminate|].
      destruct (e =? 117)%N.
      * destruct r1 as [|h1 [|h2 [|h3 [|h4 r2]]]]; try discriminate.
        destruct (hex4 h1 h2 h3 h4) as [cp|]; [|discriminate].
        cbn [length] in Hn |- *.
        assert (Hr2 : forall acc', scanstring r2 acc' = Some (t, r) ->
                                   length r < S (S (S (S (S (S (length r2))))))).
        { intros acc' H'. apply IH in H'; lia. }
        destruct (is_high_surrogate cp); [|now apply Hr2 in H].
        destruct r2 as [|b [|u [|g1 [|g2 [|g3 [|g4 r3]]]]]];
          try (now apply Hr2 in H).
        destruct ((b =? 92) && (u =? 117))%N; [|now apply Hr2 in H].
        destruct (hex4 g1 g2 g3 g4) as [lo|]; [|discriminate].
        destruct (is_low_surrogate lo); [|now apply Hr2 in H].
        apply IH in H; cbn [length] in *; lia.
      * destruct (unescape e); [|discriminate].
        apply IH in H; cbn [length] in *; lia.
    + destruct (c <=? 31)%N; [discriminate|].
      apply IH in H; lia.
Qed.


Lemma sign_part_length (s a b : str) : sign_part s = (a, b) -> length b <= length s.
Proof.
  unfold sign_part. destruct s as [|c r].
  - intros H; injection H as <- <-. lia.
  - destruct (c =? 45)%N; intros H; injection H as <- <-; simpl; lia.
Qed.

Lemma int_part_length (s a b : str) : int_part s = Some (a, b) -> length b < length s.
Proof.
  unfold int_part. destruct s as [|c r]; [discriminate|].
  destruct (c =? 48)%N.
  - intros H; injection H as <- <-. simpl; lia.
  - destruct ((49 <=? c) && (c <=? 57))%N; [|discriminate].
    destruct (span is_digit09 r) as [ds r'] eqn:E. apply span_length in E.
    intros H; injection H as <- <-. simpl; lia.
Qed.

Lemma frac_part_length (s a b : str) : frac_part s = (a, b) -> length b <= length s.
Proof.
  unfold frac_part. destruct s as [|dot [|d r]];
    try (intros H; injection H as <- <-; lia).
  destruct ((dot =? 46)%N && is_digit09 d).
  - destruct (span is_digit09 r) as [ds r'] eqn:E. apply span_length in E.
    intros H; injection H as <- <-. simpl; lia.
  - intros H; injection H as <- <-. lia.
Qed.

Lemma exp_sign_length (s a b : str) : exp_sign s = (a, b) -> length b <= length s.
Proof.
  unfold exp_sign. destruct s as [|x t]; [intros H; injection H as <- <-; lia|].
  destruct ((x =? 45) || (x =? 43))%N; intros H; injection H as <- <-; simpl; lia.
Qed.

Lemma exp_part_length (s a b : str) : exp_part s = (a, b) -> length b <= length s.
Proof.
  unfold exp_part. destruct s as [|e r]; [intros H; injection H as <- <-; lia|].
  destruct ((e =? 101) || (e =? 69))%N; [|intros H; injection H as <- <-; lia].
  destruct (exp_sign r) as [sg r'] eqn:E1. apply exp_sign_length in E1.
  destruct (span is_digit09 r') as [ds r''] eqn:E2. apply span_length in E2.
  destruct ds; intros H; injection H as <- <-; simpl; lia.
Qed.

Lemma match_number_length (s : str) v r :
  match_number s = Some (v, r) -> length r < length s.
Proof.
  unfold match_number.
  destruct (sign_part s) as [sign s1] eqn:E1. apply sign_part_length in E1.
  destruct (int_part s1) as [[ip s2]|] eqn:E2; [|discriminate].
  apply int_part_length in E2.
  destruct (frac_part s2) as [frac s3] eqn:E3. apply frac_part_length in E3.
  destruct (exp_part s3) as [expo s4] eqn:E4. apply exp_part_length in E4.
  destruct frac, expo; intros H; injection H as <- <-.
  all: lia.
Qed.

Lemma skipn_shorter (n : nat) (s : str) :
  0 < n -> s <> [] -> length (skipn n s) < length s.
Proof.
  intros Hn Hs. rewrite length_skipn. destruct s; [congruence|cbn [length]; lia].
Qed.

Lemma scan_atom_length (s : str) v r :
  s <> [] -> scan_atom s = Some (v, r) -> length r < length s.
Proof.
  intros Hs. unfold scan_atom.
  repeat match goal with
         | |- (if ?b then Some (_, skipn ?n _) else _) = _ -> _ =>
             destruct b;
             [intros H; replace r with (skipn n s) by congruence;
              apply skipn_shorter; [lia|assumption]|]
         end.
  apply match_number_length.
Qed.

(** What is left after a value is shorter than the text it was read from. *)
Lemma scan_length (f : nat) :
  (forall s v r, scan_once f s = Some (v, r) -> length r < length s) /\
  (forall acc s v r, parse_pairs f acc s = Some (v, r) -> length r < length s) /\
  (forall acc s v r, parse_items f acc s = Some (v, r) -> length r < length s).
Proof.
  induction f as [|f (IHs & IHp & IHi)]; [repeat split; discriminate|].
  repeat split.
  - intros s v r H. destruct s as [|c s]; [discriminate|].
    cbn [scan_once] in H. cbn [length].
    destruct (c =? 34)%N.
    { destruct (scanstring s []) as [[t r']|] eqn:E; [|discriminate].
      injection H as <- <-. apply (scanstring_length (length s)) in E; lia. }
    destruct (c =? 123)%N.
    { pose proof (skip_ws_length s) as Hw.
      destruct (skip_ws s) as [|c1 r1]; [discriminate|]. cbn [length] in Hw.
      destruct (c1 =? 125)%N.
      - injection H as <- <-. lia.
      - apply IHp in H. cbn [length] in H. lia. }
    destruct (c =? 91)%N.
    { pose proof (skip_ws_length s) as Hw.
      destruct (skip_ws s) as [|c1 r1]; [discriminate|]. cbn [length] in Hw.
      destruct (c1 =? 93)%N.
      - injection H as <- <-. lia.
      - apply IHi in H. cbn [length] in H. lia. }
    apply scan_atom_length in H; [|discriminate]. cbn [length] in H. lia.
  - intros acc s v r H. destruct s as [|q s]; [discriminate|].
    cbn [parse_pairs] in H. cbn [length].
    destruct (q =? 34)%N; [|discriminate].
    destruct (scanstring s []) as [[key r1]|] eqn:E; [|discriminate].
    apply (scanstring_length (length s)) in E; [|lia].
    pose proof (skip_ws_length r1) as Hw1.
    destruct (skip_ws r1) as [|colon r2]; [discriminate|]. cbn [length] in Hw1.
    destruct (colon =? 58)%N; [|discriminate].
    pose proof (skip_ws_length r2) as Hw2.
    destruct (scan_once f (skip_ws r2)) as [[v' r3]|] eqn:E3; [|discriminate].
    apply IHs in E3.
    pose proof (skip_ws_length r3) as Hw3.
    destruct (skip_ws r3) as [|c r4]; [discriminate|]. cbn [length] in Hw3.
    destruct (c =? 125)%N.
    + injection H as <- <-. lia.
    + destruct (c =? 44)%N; [|discriminate].
      apply IHp in H. pose proof (skip_ws_length r4). lia.
  - intros acc s v r H. cbn [parse_items] in H.
    destruct (scan_once f s) as [[v' r1]|] eqn:E1; [|discriminate].
    apply IHs in E1.
    pose proof (skip_ws_length r1) as Hw1.
    destruct (skip_ws r1) as [|c r2]; [discriminate|]. cbn [length] in Hw1.
    destruct (c =? 93)%N.
    + injection H as <- <-. lia.
    + destruct (c =? 44)%N; [|discriminate].
      apply IHi in H. pose proof (skip_ws_length r2). lia.
Qed.

(** Any two fuels above twice the length of the text give the same result:
    [None] from the decoder is a rejection of the text and never a lack of
    fuel. *)
Lemma scan_fuel (f : nat) :
  (forall s f', 2 * length s < f -> 2 * length s < f' ->
     scan_once f s = scan_once f' s) /\
  (forall acc s f', 2 * length s < f -> 2 * length s < f' ->
     parse_pairs f acc s = parse_pairs f' acc s) /\
  (forall acc s f', 2 * length s + 1 < f -> 2 * length s + 1 < f' ->
     parse_items f acc s = parse_items f' acc s).
Proof.
  induction f as [|f (IHs & IHp & IHi)]; [repeat split; intros; lia|].
  repeat split.
  - intros s [|f'] Hf Hf'; [lia|].
    destruct s as [|c s]; [reflexivity|]. cbn [length] in Hf, Hf'.
    cbn [scan_once].
    destruct (c =? 34)%N; [reflexivity|].
    destruct (c =? 123)%N.
    { pose proof (skip_ws_length s) as Hw.
      destruct (skip_ws s) as [|c1 r1]; [reflexivity|].
      destruct (c1 =? 125)%N; [reflexivity|].
      apply IHp; lia. }
    destruct (c =? 91)%N.
    { pose proof (skip_ws_length s) as Hw.
      destruct (skip_ws s) as [|c1 r1]; [reflexivity|].
      destruct (c1 =? 93)%N; [reflexivity|].
      apply IHi; lia. }
    reflexivity.
  - intros acc s [|f'] Hf Hf'; [lia|].
    destruct s as [|q s]; [reflexivity|]. cbn [length] in Hf, Hf'.
    cbn [parse_pairs].
    destruct (q =? 34)%N; [|reflexivity].
    destruct (scanstring s []) as [[key r1]|] eqn:E; [|reflexivity].
    apply (scanstring_length (length s)) in E; [|lia].
    pose proof (skip_ws_length r1) as Hw1.
    destruct (skip_ws r1) as [|colon r2]; [reflexivity|]. cbn [length] in Hw1.
    destruct (colon =? 58)%N; [|reflexivity].
    pose proof (skip_ws_length r2) as Hw2.
    rewrite (IHs (skip_ws r2) f') by lia.
    destruct (scan_once f' (skip_ws r2)) as [[v' r3]|] eqn:E3; [|reflexivity].
    apply (proj1 (scan_length f')) in E3.
    pose proof (skip_ws_length r3) as Hw3.
    destruct (skip_ws r3) as [|c r4]; [reflexivity|]. cbn [length] in Hw3.
    destruct (c =? 125)%N; [reflexivity|].
    destruct (c =? 44)%N; [|reflexivity].
    pose proof (skip_ws_length r4).
    apply IHp; lia.
  - intros acc s [|f'] Hf Hf'; [lia|]. cbn [parse_items].
    rewrite (IHs s f') by lia.
    destruct (scan_once f' s) as [[v' r1]|] eqn:E1; [|reflexivity].
    apply (proj1 (scan_length f')) in E1.
    pose proof (skip_ws_length r1) as Hw1.
    destruct (skip_ws r1) as [|c r2]; [reflexivity|]. cbn [length] in Hw1.
    destruct (c =? 93)%N; [reflexivity|].
    destruct (c =? 44)%N; [|reflexivity].
    pose proof (skip_ws_length r2).
    apply IHi; lia.
Qed.

(** [json_loads] with any larger fuel is [json_loads]. *)
Lemma json_loads_fuel (s : str) (f : nat) :
  2 * length s < f ->
  scan_once f (skip_ws s) = scan_once (S (2 * length s)) (skip_ws s).
Proof.
  intros Hf. pose proof (skip_ws_length s).
  apply (proj1 (scan_fuel f)); lia.
Qed.

(** The members of an object make a dictionary. *)
Lemma parse_pairs_dict (f : nat) :
  forall acc s v r, parse_pairs f acc s = Some (v, r) -> exists d, v = VDict d.
Proof.
  induction f as [|f IH]; intros acc s v r H; [discriminate|].
  destruct s as [|q s]; [discriminate|]. cbn [parse_pairs] in H.
  destruct (q =? 34)%N; [|discriminate].
  destruct (scanstring s []) as [[key r1]|]; [|discriminate].
  destruct (skip_ws r1) as [|colon r2]; [discriminate|].
  destruct (colon =? 58)%N; [|discriminate].
  destruct (scan_once f (skip_ws r2)) as [[v' r3]|]; [|discriminate].
  destruct (skip_ws r3) as [|c r4]; [discriminate|].
  destruct (c =? 125)%N.
  - injection H as <- <-. eauto.
  - destruct (c =? 44)%N; [|discriminate]. eapply IH; eassumption.
Qed.

(** A text that opens with a brace decodes to a dictionary. *)
Lemma json_loads_brace (s : str) (v : value) :
  startswith (lit "{") s = true -> json_loads s = Some v -> exists d, v = VDict d.
Proof.
  intros Hs. unfold json_loads.
  destruct s as [|c s]; [discriminate|].
  apply andb_true_iff in Hs as [Hc _]. apply N.eqb_eq in Hc.
  change (N_of_ascii "{") with 123%N in Hc. subst c.
  change (skip_ws (123%N :: s)) with (123%N :: s).
  cbn [scan_once]. change (123 =? 34)%N with false. change (123 =? 123)%N with true.
  cbv iota.
  destruct (skip_ws s) as [|c1 r1]; [discriminate|].
  destruct (c1 =? 125)%N.
  - destruct (skip_ws r1); [|discriminate]. intros H; injection H as <-. eauto.
  - destruct (parse_pairs _ _ _) as [[v' r]|] eqn:E; [|discriminate].
    destruct (skip_ws r); [|discriminate]. intros H; injection H as <-.
    eapply parse_pairs_dict; eassumption.
Qed.

End JsonFacts.

(** ** The interpretation of a response *)

Module AnalyzerFacts.

Import Re Analyzer ReFacts.

Lemma decimal_fold (g : str) :
  forall a, (0 <= a)%Z -> Forall (fun c => isdecimal c = true) g ->
  exists n,
    fold_left
      (fun acc c =>
         match acc, todecimal c with
         | Some a, Some d => Some (a * 10 + Z.of_N d)%Z
         | _, _ => None
         end) g (Some a) = Some n /\ (0 <= n)%Z.
Proof.
  induction g as [|c g IH]; intros a Ha Hg; simpl.
  - eauto.
  - inversion Hg as [|? ? Hc Hg']; subst. unfold isdecimal in Hc.
    destruct (todecimal c) as [d|]; [|discriminate].
    apply IH; [lia|assumption].
Qed.

(** [int] does not raise on a non-empty run of decimal digits. *)
Lemma py_int_digits (g : str) :
  g <> [] -> Forall (fun c => isdecimal c = true) g ->
  exists n, py_int g = Ok n /\ (0 <= n)%Z.
Proof.
  intros Hne Hg. unfold py_int. destruct g as [|c g]; [congruence|].
  destruct (decimal_fold (c :: g) 0%Z) as (n & -> & Hn); [lia|assumption|].
  eauto.
Qed.

Lemma score_re_group : Forall (group_in isdecimal) score_re.
Proof.
  repeat constructor; intros G c Hc; try discriminate G; exact Hc.
Qed.

(** The capture of the score pattern is a non-empty run of decimal digits. *)
Lemma score_match_digits (text g : str) :
  search score_re text = Some g ->
  g <> [] /\ Forall (fun c => isdecimal c = true) g.
Proof.
  intros H. apply search_match in H as [s' H]. split.
  - apply match_here_length in H. change (min_capture score_re) with 1 in H.
    destruct g; [simpl in H; lia|discriminate].
  - eapply match_here_all; [apply score_re_group|eassumption|constructor].
Qed.

Lemma score_match_int (text g : str) :
  search score_re text = Some g -> exists n, py_int g = Ok n /\ (0 <= n)%Z.
Proof.
  intros H. apply score_match_digits in H as [Hne Hg]. now apply py_int_digits.
Qed.


(** *** Stripping *)

Lemma lstrip_app_spaces (ws s : str) :
  forallb isspace ws = true -> lstrip (ws ++ s) = lstrip s.
Proof.
  induction ws as [|c ws IH]; simpl; [reflexivity|].
  intros H. apply andb_true_iff in H as [-> H]. now apply IH.
Qed.

Lemma lstrip_app_keep (a b : str) : lstrip a <> [] -> lstrip (a ++ b) = lstrip a ++ b.
Proof.
  induction a as [|c a IH]; simpl; [congruence|].
  destruct (isspace c); [apply IH|reflexivity].
Qed.

Lemma forallb_rev (p : N -> bool) (l : list N) :
  forallb p l = true -> forallb p (rev l) = true.
Proof.
  rewrite !forallb_forall. intros H x Hx. apply H. now apply in_rev.
Qed.

Lemma rstrip_app_spaces (s ws : str) :
  forallb isspace ws = true -> rstrip (s ++ ws) = rstrip s.
Proof.
  intros H. unfold rstrip. rewrite rev_app_distr.
  rewrite lstrip_app_spaces; [reflexivity|now apply forallb_rev].
Qed.

Lemma rstrip_app_keep (a b : str) : rstrip b <> [] -> rstrip (a ++ b) = a ++ rstrip b.
Proof.
  unfold rstrip. intros H. rewrite rev_app_distr.
  rewrite lstrip_app_keep.
  - now rewrite rev_app_distr, rev_involutive.
  - intros E. apply H. now rewrite E.
Qed.

Lemma strip_spaces_around (ws1 s ws2 : str) :
  forallb isspace ws1 = true -> forallb isspace ws2 = true ->
  strip s <> [] -> strip (ws1 ++ s ++ ws2) = strip s.
Proof.
  intros H1 H2 Hs. unfold strip.
  assert (Hr : rstrip s <> []).
  { intros E. apply Hs. unfold strip. now rewrite E. }
  rewrite app_assoc, rstrip_app_spaces by assumption.
  rewrite rstrip_app_keep by assumption.
  now apply lstrip_app_spaces.
Qed.

Lemma strip_fenced (body : str) :
  strip (fence_open ++ body ++ fence_close) = fence_open ++ body ++ fence_close.
Proof.
  unfold strip.
  replace (rstrip (fence_open ++ body ++ fence_close))
    with (fence_open ++ body ++ fence_close).
  - reflexivity.
  - rewrite !app_assoc. rewrite rstrip_app_keep; [reflexivity|].
    vm_compute. discriminate.
Qed.

Lemma slice_fenced (body : str) :
  slice (fence_open ++ body ++ fence_close) 7 (-3) = body.
Proof.
  unfold slice, slice_bound.
  change (7 <? 0)%Z with false. change (-3 <? 0)%Z with true. cbv iota.
  rewrite !length_app.
  change (length fence_open) with 7. change (length fence_close) with 3.
  replace (Nat.min (Z.to_nat 7) (7 + (length body + 3))) with 7 by lia.
  replace (Z.to_nat (Z.of_nat (7 + (length body + 3)) + -3) - 7) with (length body) by lia.
  change (skipn 7 (fence_open ++ body ++ fence_close)) with (body ++ fence_close).
  rewrite firstn_app, Nat.sub_diag, firstn_all. simpl. apply app_nil_r.
Qed.

Lemma brace_not_fence (s : str) :
  startswith (lit "{") s = true -> startswith fence_open s = false.
Proof.
  destruct s as [|c s]; [discriminate|]. intros H.
  apply andb_true_iff in H as [H _]. apply N.eqb_eq in H.
  change (N_of_ascii "{") with 123%N in H. subst c. reflexivity.
Qed.

(** The fence-stripped text of a fenced response is the stripped body. *)
Lemma json_match_of_fenced (ws1 body ws2 : str) :
  forallb isspace ws1 = true -> forallb isspace ws2 = true ->
  strip body <> [] ->
  json_match_of (fence_open ++ ws1 ++ body ++ ws2 ++ fence_close) = strip body.
Proof.
  intros H1 H2 Hb.
  replace (fence_open ++ ws1 ++ body ++ ws2 ++ fence_close)
    with (fence_open ++ (ws1 ++ body ++ ws2) ++ fence_close)
    by (now rewrite <- !app_assoc).
  unfold json_match_of. rewrite strip_fenced.
  fold fence_open. fold fence_close.
  rewrite startswith_app.
  replace (endswith fence_close (fence_open ++ (ws1 ++ body ++ ws2) ++ fence_close))
    with true by (rewrite app_assoc; symmetry; apply endswith_app).
  cbv [andb]. rewrite slice_fenced. now apply strip_spaces_around.
Qed.

Lemma json_match_of_brace (text : str) :
  startswith (lit "{") (strip text) = true -> json_match_of text = strip text.
Proof.
  intros H. unfold json_match_of. fold fence_open.
  now rewrite (brace_not_fence _ H).
Qed.

End AnalyzerFacts.

(** ** A text that holds an instance of a pattern is matched *)

Module SearchFacts.

Import Re Analyzer.










End SearchFacts.

(** ** The shape of a text that decodes to a dictionary *)

Module JsonShape.

Import JsonFacts.

Lemma suffix_refl (s : str) : suffix s s.
Proof. now exists []. Qed.

Lemma suffix_trans (a b c : str) : suffix a b -> suffix b c -> suffix a c.
Proof. intros [m ->] [n ->]. exists (n ++ m). now rewrite app_assoc. Qed.

Lemma suffix_cons (c : N) (r s : str) : suffix r s -> suffix r (c :: s).
Proof. intros [m ->]. now exists (c :: m). Qed.

Lemma suffix_tail (c : N) (s : str) : suffix s (c :: s).
Proof. now exists [c]. Qed.

Lemma skip_ws_suffix (s : str) : suffix (skip_ws s) s.
Proof.
  induction s as [|c s IH]; simpl; [apply suffix_refl|].
  destruct (is_json_ws c); [now apply suffix_cons|apply suffix_refl].
Qed.

Lemma span_suffix p (s a b : str) : span p s = (a, b) -> suffix b s.
Proof.
  revert a b. induction s as [|c s IH]; intros a b; simpl.
  - intros H; injection H as <- <-. apply suffix_refl.
  - destruct (p c).
    + destruct (span p s) as [a' b'] eqn:E. intros H; injection H as <- <-.
      apply suffix_cons. now apply (IH a').
    + intros H; injection H as <- <-. apply suffix_refl.
Qed.

Lemma skipn_suffix (n : nat) (s : str) : suffix (skipn n s) s.
Proof. exists (firstn n s). symmetry. apply firstn_skipn. Qed.

Lemma scanstring_suffix (n : nat) :
  forall s acc t r, length s <= n ->
  scanstring s acc = Some (t, r) -> suffix r s.
Proof.
  induction n as [|n IH]; intros s acc t r Hn H.
  - destruct s; [discriminate|simpl in Hn; lia].
  - destruct s as [|c s]; [discriminate|].
    cbn [length] in Hn. cbn [scanstring] in H.
    destruct (c =? 34)%N; [injection H as <- <-; apply suffix_tail|].
    apply suffix_cons.
    destruct (c =? 92)%N.
    + destruct s as [|e r1]; [discriminate|]. apply suffix_cons.
      destruct (e =? 117)%N.
      * destruct r1 as [|h1 [|h2 [|h3 [|h4 r2]]]]; try discriminate.
        destruct (hex4 h1 h2 h3 h4) as [cp|]; [|discriminate].
        cbn [length] in Hn. do 4 apply suffix_cons.
        assert (Hr2 : forall acc', scanstring r2 acc' = Some (t, r) -> suffix r r2).
        { intros acc' H'. apply IH in H'; [assumption|lia]. }
        destruct (is_high_surrogate cp); [|now apply Hr2 in H].
        destruct r2 as [|b [|u [|g1 [|g2 [|g3 [|g4 r3]]]]]];
          try (now apply Hr2 in H).
        destruct ((b =? 92) && (u =? 117))%N; [|now apply Hr2 in H].
        destruct (hex4 g1 g2 g3 g4) as [lo|]; [|discriminate].
        destruct (is_low_surrogate lo); [|now apply Hr2 in H].
        do 6 apply suffix_cons. apply IH in H; [assumption|cbn [length] in *; lia].
      * destruct (unescape e); [|discriminate].
        apply IH in H; [assumption|cbn [length] in *; lia].
    + destruct (c <=? 31)%N; [discriminate|].
      apply IH in H; [assumption|lia].
Qed.

Lemma match_number_suffix (s : str) v r :
  match_number s = Some (v, r) -> suffix r s.
Proof.
  unfold match_number.
  destruct (sign_part s) as [sign s1] eqn:E1.
  assert (H1 : suffix s1 s).
  { unfold sign_part in E1. destruct s as [|c s0].
    - injection E1 as <- <-. apply suffix_refl.
    - destruct (c =? 45)%N; injection E1 as <- <-;
        [apply suffix_tail|apply suffix_refl]. }
  destruct (int_part s1) as [[ip s2]|] eqn:E2; [|discriminate].
  assert (H2 : suffix s2 s1).
  { unfold int_part in E2. destruct s1 as [|c s0]; [discriminate|].
    destruct (c =? 48)%N; [injection E2 as <- <-; apply suffix_tail|].
    destruct ((49 <=? c) && (c <=? 57))%N; [|discriminate].
    destruct (span is_digit09 s0) as [ds r'] eqn:E. apply span_suffix in E.
    injection E2 as <- <-. now apply suffix_cons. }
  destruct (frac_part s2) as [frac s3] eqn:E3.
  assert (H3 : suffix s3 s2).
  { unfold frac_part in E3. destruct s2 as [|dot [|d s0]];
      try (injection E3 as <- <-; apply suffix_refl).
    destruct ((dot =? 46)%N && is_digit09 d).
    - destruct (span is_digit09 s0) as [ds r'] eqn:E. apply span_suffix in E.
      injection E3 as <- <-. now do 2 apply suffix_cons.
    - injection E3 as <- <-. apply suffix_refl. }
  destruct (exp_part s3) as [expo s4] eqn:E4.
  assert (H4 : suffix s4 s3).
  { unfold exp_part in E4. destruct s3 as [|e s0];
      [injection E4 as <- <-; apply suffix_refl|].
    destruct ((e =? 101) || (e =? 69))%N;
      [|injection E4 as <- <-; apply suffix_refl].
    destruct (exp_sign s0) as [sg r'] eqn:Es.
    assert (Hs : suffix r' s0).
    { unfold exp_sign in Es. destruct s0 as [|x t0].
      - injection Es as <- <-. apply suffix_refl.
      - destruct ((x =? 45) || (x =? 43))%N; injection Es as <- <-;
          [apply suffix_tail|apply suffix_refl]. }
    destruct (span is_digit09 r') as [ds r''] eqn:E. apply span_suffix in E.
    destruct ds; injection E4 as <- <-; [apply suffix_refl|].
    apply suffix_cons. eapply suffix_trans; eassumption. }
  assert (H : suffix s4 s).
  { eapply suffix_trans; [|exact H1]. eapply suffix_trans; [|exact H2].
    eapply suffix_trans; eassumption. }
  destruct frac, expo; intros E; replace r with s4 by congruence; exact H.
Qed.

Lemma scan_atom_suffix (s : str) v r : scan_atom s = Some (v, r) -> suffix r s.
Proof.
  unfold scan_atom.
  repeat match goal with
         | |- (if ?b then Some (_, skipn ?n _) else _) = _ -> _ =>
             destruct b;
             [intros H; replace r with (skipn n s) by congruence;
              apply skipn_suffix|]
         end.
  apply match_number_suffix.
Qed.

(** What follows a value is a suffix of the text, and what follows the
    members of an object stands right after a closing brace. *)
Lemma scan_suffix (f : nat) :
  (forall s v r, scan_once f s = Some (v, r) -> suffix r s) /\
  (forall acc s v r, parse_pairs f acc s = Some (v, r) -> closes r s) /\
  (forall acc s v r, parse_items f acc s = Some (v, r) -> suffix r s).
Proof.
  assert (Hcs : forall r s, closes r s -> suffix r s).
  { intros r s [m ->]. exists (m ++ [125%N]). now rewrite <- app_assoc. }
  assert (Hsc : forall a b c, closes a b -> suffix b c -> closes a c).
  { intros a b c [m ->] [n ->]. exists (n ++ m). now rewrite <- app_assoc. }
  induction f as [|f (IHs & IHp & IHi)]; [repeat split; discriminate|].
  repeat split.
  - intros s v r H. destruct s as [|c s]; [discriminate|].
    cbn [scan_once] in H.
    destruct (c =? 34)%N.
    { destruct (scanstring s []) as [[t r']|] eqn:E; [|discriminate].
      injection H as <- <-. apply suffix_cons.
      now apply (scanstring_suffix (length s)) in E. }
    destruct (c =? 123)%N.
    { apply suffix_cons. pose proof (skip_ws_suffix s) as Hw.
      destruct (skip_ws s) as [|c1 r1]; [discriminate|].
      destruct (c1 =? 125)%N.
      - injection H as <- <-. eapply suffix_trans; [apply suffix_tail|exact Hw].
      - apply IHp in H. eapply suffix_trans; [apply Hcs; exact H|exact Hw]. }
    destruct (c =? 91)%N.
    { apply suffix_cons. pose proof (skip_ws_suffix s) as Hw.
      destruct (skip_ws s) as [|c1 r1]; [discriminate|].
      destruct (c1 =? 93)%N.
      - injection H as <- <-. eapply suffix_trans; [apply suffix_tail|exact Hw].
      - apply IHi in H. eapply suffix_trans; eassumption. }
    now apply scan_atom_suffix in H.
  - intros acc s v r H. destruct s as [|q s]; [discriminate|].
    cbn [parse_pairs] in H.
    destruct (q =? 34)%N; [|discriminate].
    destruct (scanstring s []) as [[key r1]|] eqn:E; [|discriminate].
    apply (scanstring_suffix (length s)) in E; [|lia].
    pose proof (skip_ws_suffix r1) as Hw1.
    destruct (skip_ws r1) as [|colon r2]; [discriminate|].
    destruct (colon =? 58)%N; [|discriminate].
    pose proof (skip_ws_suffix r2) as Hw2.
    destruct (scan_once f (skip_ws r2)) as [[v' r3]|] eqn:E3; [|discriminate].
    apply IHs in E3.
    pose proof (skip_ws_suffix r3) as Hw3.
    assert (H3 : suffix r3 (q :: s)).
    { apply suffix_cons. eapply suffix_trans; [|exact E].
      eapply suffix_trans; [|exact Hw1]. apply suffix_cons.
      eapply suffix_trans; eassumption. }
    destruct (skip_ws r3) as [|c r4]; [discriminate|].
    destruct (c =? 125)%N eqn:Ec.
    + injection H as <- <-. apply N.eqb_eq in Ec. subst c.
      apply (Hsc r4 r3); [|exact H3]. destruct Hw3 as [m ->]. now exists m.
    + destruct (c =? 44)%N; [|discriminate].
      apply IHp in H. apply (Hsc r (skip_ws r4)); [exact H|].
      eapply suffix_trans; [apply skip_ws_suffix|].
      eapply suffix_trans; [apply suffix_tail|].
      eapply suffix_trans; eassumption.
  - intros acc s v r H. cbn [parse_items] in H.
    destruct (scan_once f s) as [[v' r1]|] eqn:E1; [|discriminate].
    apply IHs in E1.
    pose proof (skip_ws_suffix r1) as Hw1.
    destruct (skip_ws r1) as [|c r2]; [discriminate|].
    assert (H2 : suffix r2 s).
    { eapply suffix_trans; [apply suffix_tail|].
      eapply suffix_trans; eassumption. }
    destruct (c =? 93)%N.
    + injection H as <- <-. exact H2.
    + destruct (c =? 44)%N; [|discriminate].
      apply IHi in H. eapply suffix_trans; [exact H|].
      eapply suffix_trans; [apply skip_ws_suffix|exact H2].
Qed.

Lemma parse_items_list (f : nat) :
  forall acc s v r, parse_items f acc s = Some (v, r) -> exists l, v = VList l.
Proof.
  induction f as [|f IH]; intros acc s v r H; [discriminate|].
  cbn [parse_items] in H.
  destruct (scan_once f s) as [[v' r1]|]; [|discriminate].
  destruct (skip_ws r1) as [|c r2]; [discriminate|].
  destruct (c =? 93)%N.
  - injection H as <- <-. eauto.
  - destruct (c =? 44)%N; [|discriminate]. eapply IH; eassumption.
Qed.

Lemma scan_atom_not_dict (s : str) d r : scan_atom s <> Some (VDict d, r).
Proof.
  unfold scan_atom.
  repeat match goal with
         | |- (if ?b then _ else _) <> _ => destruct b; [discriminate|]
         end.
  unfold match_number.
  destruct (sign_part s) as [sign s1].
  destruct (int_part s1) as [[ip s2]|]; [|discriminate].
  destruct (frac_part s2) as [frac s3].
  destruct (exp_part s3) as [expo s4].
  destruct frac, expo; discriminate.
Qed.

(** Only a text that opens with a brace decodes to a dictionary, and the
    dictionary ends with a closing brace. *)
Lemma scan_dict_braces (f : nat) (s : str) d r :
  scan_once f s = Some (VDict d, r) ->
  startswith (lit "{") s = true /\ closes r s.
Proof.
  destruct f as [|f]; [discriminate|].
  destruct s as [|c s]; [discriminate|]. cbn [scan_once].
  destruct (c =? 34)%N.
  { destruct (scanstring s []) as [[t r']|]; discriminate. }
  destruct (c =? 123)%N eqn:Ec.
  { intros H. apply N.eqb_eq in Ec. subst c. split; [reflexivity|].
    pose proof (skip_ws_suffix s) as [w Hw].
    destruct (skip_ws s) as [|c1 r1]; [discriminate|].
    destruct (c1 =? 125)%N eqn:E1.
    - injection H as _ <-. apply N.eqb_eq in E1. subst c1.
      exists (123%N :: w). now rewrite Hw.
    - apply (proj1 (proj2 (scan_suffix f))) in H. destruct H as [m Hm].
      exists (123%N :: w ++ m). rewrite Hw, Hm. cbn [app].
      now rewrite <- app_assoc. }
  destruct (c =? 91)%N.
  { destruct (skip_ws s) as [|c1 r1]; [discriminate|].
    destruct (c1 =? 93)%N; [discriminate|].
    intros H. apply parse_items_list in H as [l Hl]. discriminate. }
  intros H. now apply scan_atom_not_dict in H.
Qed.

End JsonShape.

(** ** A stripped text that decodes to a dictionary is in braces *)

Module ObjectFacts.

Import Analyzer JsonFacts JsonShape.

Lemma json_ws_isspace (c : N) : is_json_ws c = true -> isspace c = true.
Proof.
  unfold is_json_ws. intros H.
  repeat (apply orb_true_iff in H as [H|H]);
    apply N.eqb_eq in H; subst c; reflexivity.
Qed.

Lemma lstrip_head (s : str) c t : lstrip s = c :: t -> isspace c = false.
Proof.
  induction s as [|x s IH]; simpl; [discriminate|].
  destruct (isspace x) eqn:E; [exact IH|].
  intros H; injection H as <- _. exact E.
Qed.

Lemma lstrip_suffix (s : str) : suffix (lstrip s) s.
Proof.
  induction s as [|x s IH]; simpl; [apply suffix_refl|].
  destruct (isspace x); [now apply suffix_cons|apply suffix_refl].
Qed.

Lemma strip_head (s : str) c t : strip s = c :: t -> isspace c = false.
Proof. apply lstrip_head. Qed.

Lemma strip_last (s m : str) c : strip s = m ++ [c] -> isspace c = false.
Proof.
  unfold strip. intros H.
  destruct (lstrip_suffix (rstrip s)) as [w Hw]. rewrite H in Hw.
  unfold rstrip in Hw. apply (f_equal (@rev N)) in Hw.
  rewrite rev_involutive, !rev_app_distr in Hw. cbn [rev app] in Hw.
  eapply lstrip_head. exact Hw.
Qed.

Lemma skip_ws_nil (r : str) : skip_ws r = [] -> forallb is_json_ws r = true.
Proof.
  induction r as [|c r IH]; simpl; [reflexivity|].
  destruct (is_json_ws c); [exact IH|discriminate].
Qed.

(** The code's test for braces holds of every stripped text that
    [json.loads] decodes to a dictionary. *)
Lemma object_text_in_braces (text : str) d :
  json_loads (strip text) = Some (VDict d) ->
  looks_like_json (strip text) = true.
Proof.
  unfold json_loads. intros H.
  destruct (scan_once _ (skip_ws (strip text))) as [[v r]|] eqn:E; [|discriminate].
  destruct (skip_ws r) eqn:Er; [|discriminate]. injection H as ->.
  assert (Hskip : skip_ws (strip text) = strip text).
  { destruct (strip text) as [|c t] eqn:Et; [reflexivity|].
    cbn [skip_ws]. destruct (is_json_ws c) eqn:Ec; [|reflexivity].
    apply json_ws_isspace in Ec. apply strip_head in Et. congruence. }
  rewrite Hskip in E. apply scan_dict_braces in E as [Hopen [m Hm]].
  unfold looks_like_json. rewrite Hopen. cbn [andb].
  apply skip_ws_nil in Er.
  destruct r as [|y0 r1].
  - rewrite Hm. apply (endswith_app (lit "}") m).
  - exfalso.
    destruct (exists_last (l := y0 :: r1)) as (r0 & y & Hr); [discriminate|].
    rewrite Hr in Er, Hm.
    rewrite forallb_app in Er. apply andb_true_iff in Er as [_ Ey].
    cbn [forallb] in Ey. rewrite andb_true_r in Ey.
    apply json_ws_isspace in Ey.
    assert (Hl : strip text = (m ++ 125%N :: r0) ++ [y]).
    { rewrite Hm. now rewrite <- app_assoc. }
    apply strip_last in Hl. congruence.
Qed.

End ObjectFacts.

(** ** The claims about the interpretation of a response *)

Section Interpretation.

Import Re Analyzer ReFacts AnalyzerFacts JsonFacts SearchFacts ObjectFacts.







(** C5: the response that is the JSON object with the score 87 and the
    feedback Good traction yields exactly that score and that feedback; and
    whenever the
    fence-stripped text begins with an opening brace, ends with a closing
    brace and is decoded by [json.loads], the decoded object is the result,
    so that its score and feedback are those of the object. *)
Theorem C5_direct_json :
  interpret (qlit "{'score': 87, 'feedback': 'Good traction'}")
  = Ok (result 87 (lit "Good traction"))
  /\ forall (response_text : str) (v : value),
       startswith (lit "{") (json_match_of response_text) = true ->
       endswith (lit "}") (json_match_of response_text) = true ->
       json_loads (json_match_of response_text) = Some v ->
       interpret response_text = Ok v
       /\ exists d, v = VDict d
                    /\ item (lit "score") v = dict_get (lit "score") d
                    /\ item (lit "feedback") v = dict_get (lit "feedback") d.
Proof.
  split; [vm_compute; reflexivity|].
  intros response_text v Hs He Hj. unfold interpret, looks_like_json.
  rewrite Hs, He, Hj. split; [reflexivity|].
  destruct (json_loads_brace _ _ Hs Hj) as [d ->]. eauto.
Qed.

Lemma C5_direct_json_witness :
  interpret (qlit "  {'feedback': 'Solid team', 'score': 64}  ")
  = Ok (VDict [(lit "feedback", VStr (lit "Solid team")); (lit "score", VInt 64)]).
Proof.
  apply (proj2 C5_direct_json (qlit "  {'feedback': 'Solid team', 'score': 64}  "));
    vm_compute; reflexivity.
Defined.

(** C6: a well-formed JSON response, that is a response whose stripped text
    [json.loads] decodes to an object, and the same response between a
    [```json] fence and a closing fence, with any blank characters between
    the fence markers and the response, are interpreted to the same result,
    the decoded object. *)
Theorem C6_fenced_json (body ws1 ws2 : str) (d : list (list N * value)) :
  forallb isspace ws1 = true ->
  forallb isspace ws2 = true ->
  json_loads (strip body) = Some (VDict d) ->
  interpret (lit "```json" ++ ws1 ++ body ++ ws2 ++ lit "```") = interpret body
  /\ interpret body = Ok (VDict d).
Proof.
  intros H1 H2 Hj.
  pose proof (object_text_in_braces _ _ Hj) as Hl.
  assert (Hb : startswith (lit "{") (strip body) = true).
  { now apply andb_true_iff in Hl as [Hs _]. }
  assert (Hne : strip body <> []).
  { destruct (strip body); discriminate. }
  assert (Hplain : interpret body = Ok (VDict d)).
  { unfold interpret. rewrite (json_match_of_brace _ Hb), Hl, Hj. reflexivity. }
  split; [|exact Hplain]. rewrite Hplain.
  unfold interpret. fold fence_open. fold fence_close.
  rewrite (json_match_of_fenced _ _ _ H1 H2 Hne), Hl, Hj. reflexivity.
Qed.

Lemma C6_fenced_json_witness :
  interpret (lit "```json" ++ [10%N]
             ++ qlit "{'score': 87, 'feedback': 'Good traction'}"
             ++ [10%N] ++ lit "```")
  = interpret (qlit "{'score': 87, 'feedback': 'Good traction'}").
Proof.
  apply (C6_fenced_json (qlit "{'score': 87, 'feedback': 'Good traction'}")
           [10%N] [10%N]
           [(lit "score", VInt 87); (lit "feedback", VStr (lit "Good traction"))]);
    vm_compute; reflexivity.
Defined.



(** C10: whenever the fence-stripped text is in braces and is decoded by
    [json.loads], the decoded object is returned as it is, key by key: an
    object without a score, or without a feedback, or whose score is
    negative, not an integer, or above 100, is the result unchanged. *)
Theorem C10_no_validation :
  (forall (response_text : str) (v : value),
      looks_like_json (json_match_of response_text) = true ->
      json_loads (json_match_of response_text) = Some v ->
      interpret response_text = Ok v)
  /\ interpret (qlit "{'feedback': 'No number given'}")
     = Ok (VDict [(lit "feedback", VStr (lit "No number given"))])
  /\ interpret (qlit "{'score': 70}") = Ok (VDict [(lit "score", VInt 70)])
  /\ interpret (qlit "{'score': -5, 'feedback': 'Poor'}")
     = Ok (result (-5) (lit "Poor"))
  /\ interpret (qlit "{'score': 7.5, 'feedback': 'Out of ten'}")
     = Ok (VDict [(lit "score", VFloat (lit "7.5"));
                  (lit "feedback", VStr (lit "Out of ten"))])
  /\ interpret (qlit "{'score': 150, 'feedback': 'Outstanding'}")
     = Ok (result 150 (lit "Outstanding")).
Proof.
  split.
  - intros response_text v Hl Hj. unfold interpret. rewrite Hl, Hj. reflexivity.
  - repeat split; vm_compute; reflexivity.
Qed.

Lemma C10_no_validation_witness :
  interpret (lit "```json" ++ qlit "{'score': 101}" ++ lit "```")
  = Ok (VDict [(lit "score", VInt 101)]).
Proof.
  apply (proj1 C10_no_validation); vm_compute; reflexivity.
Defined.

End Interpretation.

(** ** The claims about the analysis of a component *)

Section Analysis.

Import Analyzer.

Lemma components_have_prompts (component : str) :
  In component components ->
  exists prompt,
    dict_get_str component Prompts.BUSINESS_MODEL_CANVAS_PROMPTS = Some prompt.
Proof.
  intros H. vm_compute in H.
  repeat (destruct H as [H|H]; [subst component; eexists; vm_compute; reflexivity|]).
  contradiction.
Qed.

(** C2: for each of the ten components, when the call to the model raises an
    exception (an instance of [Exception]: a network error, a timeout, an
    error status, a rate limit, or any other), [analyze_component] does not
    raise: it reports the failure through [st.error] and returns exactly the
    dictionary with the score 0 and the feedback
    Failed to analyze <component>. Please try again. *)
Theorem C2_failure_sentinel
    (create : Analyzer.request -> outcome (list (list N)))
    (component content : str) (errors : list str) :
  In component components ->
  (exists prompt,
      dict_get_str component Prompts.BUSINESS_MODEL_CANVAS_PROMPTS = Some prompt)
  /\ forall (prompt : str) (e : exn),
       dict_get_str component Prompts.BUSINESS_MODEL_CANVAS_PROMPTS = Some prompt ->
       create (request_of prompt content) = Raise e ->
       isinstance_Exception e = true ->
       analyze_component create component content errors
       = (Ok (VDict
                [(lit "score", VInt 0);
                 (lit "feedback",
                  VStr (lit "Failed to analyze " ++ component
                        ++ lit ". Please try again."))]),
          errors
          ++ [lit "Error analyzing " ++ component ++ lit ": " ++ str_of_exn e]).
Proof.
  intros Hc. split; [now apply components_have_prompts|].
  intros prompt e Hp Hcreate He. unfold analyze_component.
  rewrite Hp, Hcreate. cbn [bind]. rewrite He. reflexivity.
Qed.

Lemma C2_failure_sentinel_witness :
  analyze_component
    (fun _ => Raise (Foreign true (lit "Connection error.")))
    (lit "revenue_streams") (lit "Slide 1: we sell widgets") []
  = (Ok (result 0 (lit "Failed to analyze revenue_streams. Please try again.")),
     [lit "Error analyzing revenue_streams: Connection error."]).
Proof.
  destruct (C2_failure_sentinel
              (fun _ => Raise (Foreign true (lit "Connection error.")))
              (lit "revenue_streams") (lit "Slide 1: we sell widgets") [])
    as [[prompt Hp] H].
  - vm_compute. tauto.
  - rewrite (H prompt (Foreign true (lit "Connection error.")) Hp eq_refl eq_refl).
    vm_compute. reflexivity.
Defined.

End Analysis.

(** ** The claims about the summary *)

Section Dashboard.

Import Analyzer Summary.

(** C3, as stated, fails: four of the ten scores are 80 or more (95, 85, 90
    and 82), not three. *)
Lemma C3_strengths_not_three :
  strengths [95; 85; 72; 65; 50; 90; 60; 78; 82; 55]%Z <> 3.
Proof. vm_compute. discriminate. Qed.

Lemma count_filter_app (p : Z -> bool) (a b : list Z) :
  length (filter p (a ++ b)) = length (filter p a) + length (filter p b).
Proof. now rewrite filter_app, length_app. Qed.

(** C3, amended: over the ten results with the scores 95, 85, 72, 65, 50, 90,
    60, 78, 82, 55 the mean is 732/10 = 73.2, four scores count as strengths
    and four as weaknesses; and a score from 70 to 79 counts toward neither:
    with or without it both counts are the same. *)
Theorem C3_summary :
  scores_of
    (combine components
       (map (fun score => result score [])
          [95; 85; 72; 65; 50; 90; 60; 78; 82; 55]%Z))
  = Some [95; 85; 72; 65; 50; 90; 60; 78; 82; 55]%Z
  /\ avg_score [95; 85; 72; 65; 50; 90; 60; 78; 82; 55]%Z = Some (732 # 10)%Q
  /\ strengths [95; 85; 72; 65; 50; 90; 60; 78; 82; 55]%Z = 4
  /\ weaknesses [95; 85; 72; 65; 50; 90; 60; 78; 82; 55]%Z = 4
  /\ forall (before after : list Z) (score : Z),
       (70 <= score < 80)%Z ->
       strengths (before ++ score :: after) = strengths (before ++ after)
       /\ weaknesses (before ++ score :: after) = weaknesses (before ++ after).
Proof.
  repeat split; try (vm_compute; reflexivity).
  - unfold strengths. rewrite !count_filter_app. cbn [filter].
    destruct (Z.leb_spec 80 score); [lia|reflexivity].
  - unfold weaknesses. rewrite !count_filter_app. cbn [filter].
    destruct (Z.ltb_spec score 70); [lia|reflexivity].
Qed.

Lemma C3_summary_witness :
  strengths ([95; 85] ++ 72 :: [65; 50])%Z = strengths ([95; 85] ++ [65; 50])%Z
  /\ weaknesses ([95; 85] ++ 72 :: [65; 50])%Z = weaknesses ([95; 85] ++ [65; 50])%Z.
Proof.
  apply (proj2 (proj2 (proj2 (proj2 C3_summary)))). lia.
Defined.

End Dashboard.

(** ** The claims about the extraction *)

Section Extraction.

Import Extractor.

Lemma fresh_above (fs : list N) (p : N) : In p fs -> (p <? fresh fs)%N = true.
Proof.
  intros H. apply N.ltb_lt. unfold fresh.
  induction fs as [|q fs IH]; [contradiction|]. cbn [fold_right].
  destruct H as [->|H]; [lia|]. specialize (IH H). lia.
Qed.

(** The temporary file is gone after the call, and no other file is. *)
Lemma unlink_fresh (fs : list N) : unlink (fresh fs) (fresh fs :: fs) = fs.
Proof.
  unfold unlink. cbn [filter]. rewrite N.eqb_refl. cbn [negb].
  assert (H : forall l, (forall p, In p l -> (p <? fresh fs)%N = true) ->
                        filter (fun p => negb (p =? fresh fs)%N) l = l).
  { induction l as [|q l IH]; intros Hl; [reflexivity|]. cbn [filter].
    assert (Hq : (q <? fresh fs)%N = true) by (apply Hl; now left).
    apply N.ltb_lt in Hq.
    replace (q =? fresh fs)%N with false by (symmetry; apply N.eqb_neq; lia).
    cbn [negb]. f_equal. apply IH. intros p Hp. apply Hl. now right. }
  apply H. apply fresh_above.
Qed.

Lemma pdf_pages_texts (texts : list str) :
  forall page_num extracted_text,
  exists text, pdf_pages (map Ok texts) page_num extracted_text = Ok text.
Proof.
  induction texts as [|t texts IH]; intros page_num extracted_text;
    cbn [map pdf_pages bind]; eauto.
Qed.

Lemma pdf_pages_raise (e : exn) (pages : list (outcome str)) :
  In (Raise e) pages ->
  forall page_num extracted_text,
  exists e', pdf_pages pages page_num extracted_text = Raise e'.
Proof.
  induction pages as [|page pages IH]; intros H page_num extracted_text;
    [contradiction|].
  cbn [pdf_pages]. destruct page as [t|e0]; cbn [bind]; [|eauto].
  destruct H as [H|H]; [discriminate|]. now apply IH.
Qed.

(** C8, as stated, fails: when PyPDF2 rejects the content of a file named
    deck.pdf, the exception leaves [extract_text_from_file]; no placeholder
    text is returned. *)
Lemma C8_library_failure_propagates :
  extract_text_from_file ascii_lower
    (fun _ => Raise (Foreign true (lit "EOF marker not found")))
    (fun _ => Ok []) (fun _ => Ok [])
    {| name := lit "deck.pdf"; getvalue := [] |} []
  = (Raise (Foreign true (lit "EOF marker not found")), []).
Proof. vm_compute. reflexivity. Qed.

(** C8, amended.  For a file of one of the four formats the temporary file is
    removed in every case.  A ppt file yields the fixed advisory text.  For a
    pdf, pptx or docx file, the text assembled from what the library read is
    returned when the library returns; when the library raises, on opening
    the file or on a page, the exception leaves [extract_text_from_file]:
    the [try] statement has a [finally] clause and no handler. *)
Theorem C8_supported_formats
    (lower : list N -> list N)
    (PdfReader : list Byte.byte -> outcome (list (outcome (list N))))
    (Presentation : list Byte.byte -> outcome (list (list (option (list N)))))
    (Document : list Byte.byte -> outcome (list (list N)))
    (uploaded_file : UploadedFile) (fs : list N) :
  let file_extension := lower (snd (splitext (name uploaded_file))) in
  let data := getvalue uploaded_file in
  let run :=
    extract_text_from_file lower PdfReader Presentation Document
      uploaded_file fs in
  snd run = fs
  /\ (file_extension = lit ".ppt" ->
      fst run
      = Ok (lit "PPT format has limited extraction capabilities. Consider converting to PPTX for better results."))
  /\ (file_extension = lit ".pdf" ->
      (forall e, PdfReader data = Raise e -> fst run = Raise e)
      /\ (forall pages e, PdfReader data = Ok pages -> In (Raise e) pages ->
            exists e', fst run = Raise e')
      /\ (forall texts, PdfReader data = Ok (map Ok texts) ->
            fst run = pdf_pages (map Ok texts) 0 []
            /\ exists text, fst run = Ok text))
  /\ (file_extension = lit ".pptx" ->
      (forall e, Presentation data = Raise e -> fst run = Raise e)
      /\ (forall slides, Presentation data = Ok slides ->
            fst run = Ok (pptx_slides slides 0 [])))
  /\ (file_extension = lit ".docx" ->
      (forall e, Document data = Raise e -> fst run = Raise e)
      /\ (forall paragraphs, Document data = Ok paragraphs ->
            fst run = Ok (docx_paragraphs paragraphs []))).
Proof.
  intros file_extension data run.
  unfold run, extract_text_from_file. cbn [fst snd].
  fold file_extension. fold data.
  split; [apply unlink_fresh|].
  unfold extract_body.
  split; [|split; [|split]]; intros Hext; rewrite Hext.
  - reflexivity.
  - change (str_eqb (lit ".pdf") (lit ".pdf")) with true. cbv iota.
    split; [|split].
    + intros e He. rewrite He. reflexivity.
    + intros pages e Hp Hin. rewrite Hp. cbn [bind].
      now apply (pdf_pages_raise e).
    + intros texts Ht. rewrite Ht. cbn [bind].
      split; [reflexivity|apply pdf_pages_texts].
  - change (str_eqb (lit ".pptx") (lit ".pdf")) with false.
    change (str_eqb (lit ".pptx") (lit ".pptx")) with true. cbv iota.
    split.
    + intros e He. rewrite He. reflexivity.
    + intros slides Hs. rewrite Hs. reflexivity.
  - change (str_eqb (lit ".docx") (lit ".pdf")) with false.
    change (str_eqb (lit ".docx") (lit ".pptx")) with false.
    change (str_eqb (lit ".docx") (lit ".docx")) with true. cbv iota.
    split.
    + intros e He. rewrite He. reflexivity.
    + intros paragraphs Hs. rewrite Hs. reflexivity.
Qed.

Lemma C8_supported_formats_witness :
  fst (extract_text_from_file ascii_lower
         (fun _ => Ok []) (fun _ => Ok []) (fun _ => Ok [])
         {| name := lit "Pitch.PPT"; getvalue := [] |} [4%N])
  = Ok (lit "PPT format has limited extraction capabilities. Consider converting to PPTX for better results.").
Proof.
  apply (proj1 (proj2 (C8_supported_formats ascii_lower
                         (fun _ => Ok []) (fun _ => Ok []) (fun _ => Ok [])
                         {| name := lit "Pitch.PPT"; getvalue := [] |} [4%N]))).
  vm_compute. reflexivity.
Defined.

(** C9: for every file whose extension, in lower case, is none of .pdf,
    .pptx, .docx and .ppt, the extraction does not fail, calls none of the
    libraries and returns the text Unsupported file format: followed by that
    extension; the text is not empty. *)
Theorem C9_unsupported_format
    (lower : list N -> list N)
    (PdfReader : list Byte.byte -> outcome (list (outcome (list N))))
    (Presentation : list Byte.byte -> outcome (list (list (option (list N)))))
    (Document : list Byte.byte -> outcome (list (list N)))
    (uploaded_file : UploadedFile) (fs : list N) :
  let file_extension := lower (snd (splitext (name uploaded_file))) in
  file_extension <> lit ".pdf" ->
  file_extension <> lit ".pptx" ->
  file_extension <> lit ".docx" ->
  file_extension <> lit ".ppt" ->
  extract_text_from_file lower PdfReader Presentation Document uploaded_file fs
  = (Ok (lit "Unsupported file format: " ++ file_extension), fs)
  /\ lit "Unsupported file format: " ++ file_extension <> [].
Proof.
  intros file_extension H1 H2 H3 H4. split; [|discriminate].
  unfold extract_text_from_file. fold file_extension.
  rewrite unlink_fresh. unfold extract_body.
  now rewrite !str_eqb_neq by assumption.
Qed.

Lemma C9_unsupported_format_witness :
  extract_text_from_file ascii_lower
    (fun _ => Raise (Foreign true (lit "not called")))
    (fun _ => Raise (Foreign true (lit "not called")))
    (fun _ => Raise (Foreign true (lit "not called")))
    {| name := lit "notes.TXT"; getvalue := [] |} []
  = (Ok (lit "Unsupported file format: .txt"), []).
Proof.
  apply (C9_unsupported_format ascii_lower
           (fun _ => Raise (Foreign true (lit "not called")))
           (fun _ => Raise (Foreign true (lit "not called")))
           (fun _ => Raise (Foreign true (lit "not called")))
           {| name := lit "notes.TXT"; getvalue := [] |} []);
    vm_compute; discriminate.
Defined.

End Extraction.

(** * Further properties of the code *)

(** ** Dictionaries *)

Module DictFacts.

Lemma dict_get_set_same (d : list (list N * value)) (k : str) (v : value) :
  dict_get k (dict_set d k v) = Some v.
Proof.
  induction d as [|[k' v'] d IH]; cbn [dict_set dict_get].
  - now rewrite str_eqb_refl.
  - destruct (str_eqb k k') eqn:E; cbn [dict_get]; rewrite E; [reflexivity|exact IH].
Qed.

Lemma dict_get_set_other (d : list (list N * value)) (k k' : str) (v : value) :
  k <> k' -> dict_get k' (dict_set d k v) = dict_get k' d.
Proof.
  intros Hne. induction d as [|[k0 v0] d IH]; cbn [dict_set dict_get].
  - rewrite str_eqb_neq; [reflexivity|congruence].
  - destruct (str_eqb k k0) eqn:E; cbn [dict_get].
    + apply str_eqb_eq in E. subst k0.
      rewrite (str_eqb_neq k' k); [reflexivity|congruence].
    + destruct (str_eqb k' k0); [reflexivity|exact IH].
Qed.

Lemma dict_set_fresh (d : list (list N * value)) (k : str) (v : value) :
  ~ In k (map fst d) -> dict_set d k v = d ++ [(k, v)].
Proof.
  induction d as [|[k' v'] d IH]; cbn [dict_set map fst app In]; [reflexivity|].
  intros H. rewrite str_eqb_neq by (intros ->; apply H; now left).
  f_equal. apply IH. intros Hin. apply H. now right.
Qed.

Lemma dict_get_app_fresh (d d' : list (list N * value)) (k : str) :
  ~ In k (map fst d) -> dict_get k (d ++ d') = dict_get k d'.
Proof.
  induction d as [|[k' v'] d IH]; cbn [map fst app In dict_get]; [reflexivity|].
  intros H. rewrite str_eqb_neq by (intros ->; apply H; now left).
  apply IH. intros Hin. apply H. now right.
Qed.

End DictFacts.

(** ** One component *)

Module ComponentFacts.

Import Re Analyzer AnalyzerFacts JsonFacts DictFacts.

(** The interpretation never raises, and its result is a dictionary. *)
Lemma interpret_dict (response_text : str) :
  exists d, interpret response_text = Ok (VDict d).
Proof.
  unfold interpret.
  destruct (looks_like_json (json_match_of response_text)) eqn:Hl.
  - destruct (json_loads (json_match_of response_text)) as [v|] eqn:Hj.
    + apply andb_true_iff in Hl as [Hs _].
      destruct (json_loads_brace _ _ Hs Hj) as [d ->]. eauto.
    + destruct (search score_re response_text) as [g|] eqn:Hs.
      * destruct (score_match_int _ _ Hs) as (n & -> & _). cbn [bind].
        unfold result. eauto.
      * cbn [bind]. unfold result. eauto.
  - destruct (search score_re response_text) as [g|] eqn:Hs;
      [|unfold last_resort, result; eauto].
    destruct (search feedback_re response_text) as [gf|];
      [|unfold last_resort, result; eauto].
    destruct (score_match_int _ _ Hs) as (n & -> & _). cbn [bind].
    unfold result. eauto.
Qed.

Lemma not_component_no_prompt (component : str) :
  ~ In component components ->
  dict_get_str component Prompts.BUSINESS_MODEL_CANVAS_PROMPTS = None.
Proof.
  unfold components.
  induction Prompts.BUSINESS_MODEL_CANVAS_PROMPTS as [|[k p] l IH];
    cbn [map fst In dict_get_str]; [reflexivity|].
  intros H. rewrite str_eqb_neq by (intros ->; apply H; now left).
  apply IH. intros Hin. apply H. now right.
Qed.

Lemma component_prompt (component : str) :
  In component components ->
  exists prompt,
    dict_get_str component Prompts.BUSINESS_MODEL_CANVAS_PROMPTS = Some prompt.
Proof.
  unfold components.
  induction Prompts.BUSINESS_MODEL_CANVAS_PROMPTS as [|[k p] l IH];
    cbn [map fst In dict_get_str]; [contradiction|].
  intros H. destruct (str_eqb component k) eqn:E; [eauto|].
  destruct H as [H|H]; [|now apply IH].
  subst k. now rewrite str_eqb_refl in E.
Qed.

(** The list of reports only grows at its end, and what is returned does not
    depend on it. *)
Lemma analyze_component_errors create (component content : str) (errors : list str) :
  analyze_component create component content errors
  = (fst (analyze_component create component content []),
     errors ++ snd (analyze_component create component content [])).
Proof.
  unfold analyze_component.
  destruct (dict_get_str component _) as [prompt|]; cbn [fst snd];
    [|now rewrite app_nil_r].
  destruct (create (request_of prompt content)) as [m|e]; cbn [bind].
  - destruct (first_text m) as [t|e]; cbn [bind].
    + destruct (interpret_dict t) as [d ->]. cbn [fst snd]. now rewrite app_nil_r.
    + destruct (isinstance_Exception e); cbn [fst snd]; [reflexivity|].
      now rewrite app_nil_r.
  - destruct (isinstance_Exception e); cbn [fst snd]; [reflexivity|].
    now rewrite app_nil_r.
Qed.

Lemma analyze_component_ok_dict create (component content : str)
    (errors : list str) (v : value) :
  fst (analyze_component create component content errors) = Ok v ->
  exists d, v = VDict d.
Proof.
  unfold analyze_component.
  destruct (dict_get_str component _) as [prompt|]; [|discriminate].
  destruct (create (request_of prompt content)) as [m|e]; cbn [bind].
  - destruct (first_text m) as [t|e]; cbn [bind].
    + destruct (interpret_dict t) as [d ->]. cbn [fst].
      intros H; injection H as <-. eauto.
    + destruct (isinstance_Exception e); cbn [fst]; [|discriminate].
      intros H; injection H as <-. unfold failure_result, result. eauto.
  - destruct (isinstance_Exception e); cbn [fst]; [|discriminate].
    intros H; injection H as <-. unfold failure_result, result. eauto.
Qed.

(** An exception that leaves [analyze_component] for a component of the table
    is no instance of [Exception]. *)
Lemma analyze_component_raise create (component content : str)
    (errors : list str) (e : exn) :
  In component components ->
  fst (analyze_component create component content errors) = Raise e ->
  isinstance_Exception e = false.
Proof.
  intros Hin. destruct (component_prompt _ Hin) as [prompt Hp].
  unfold analyze_component. rewrite Hp.
  destruct (create (request_of prompt content)) as [m|e']; cbn [bind].
  - destruct m as [|t m']; cbn [first_text bind isinstance_Exception fst];
      [discriminate|].
    destruct (interpret_dict t) as [d ->]. discriminate.
  - destruct (isinstance_Exception e') eqn:He; cbn [fst]; [discriminate|].
    intros H; injection H as <-. exact He.
Qed.





(** X3: a message without any content block makes [message.content[0]] raise
    [IndexError], which the handler of line 178 turns into the result of
    lines 180-183, reported as list index out of range. *)
Theorem analyze_component_empty_message
    (create : request -> outcome (list (list N)))
    (component content prompt : str) (errors : list str) :
  dict_get_str component Prompts.BUSINESS_MODEL_CANVAS_PROMPTS = Some prompt ->
  create (request_of prompt content) = Ok [] ->
  analyze_component create component content errors
  = (Ok (result 0 (lit "Failed to analyze " ++ component
                   ++ lit ". Please try again.")),
     errors ++ [lit "Error analyzing " ++ component
                ++ lit ": list index out of range"]).
Proof.
  intros Hp Hc. unfold analyze_component. rewrite Hp, Hc. reflexivity.
Qed.

Lemma analyze_component_empty_message_witness :
  analyze_component (fun _ => Ok []) (lit "overview") (lit "deck") []
  = (Ok (result 0 (lit "Failed to analyze overview. Please try again.")),
     [lit "Error analyzing overview: list index out of range"]).
Proof.
  destruct (component_prompt (lit "overview")) as [prompt Hp].
  - vm_compute. tauto.
  - rewrite (analyze_component_empty_message (fun _ => Ok [])
               (lit "overview") (lit "deck") prompt [] Hp eq_refl).
    vm_compute. reflexivity.
Defined.

(** X4: for an identifier that is no key of the prompt table the lookup of
    line 123 raises [KeyError] before the [try] statement: the exception
    leaves the function, the client is not called and nothing is reported. *)
Theorem analyze_component_unknown
    (create : request -> outcome (list (list N)))
    (component content : str) (errors : list str) :
  ~ In component components ->
  analyze_component create component content errors
  = (Raise (KeyError component), errors).
Proof.
  intros H. unfold analyze_component.
  now rewrite (not_component_no_prompt _ H).
Qed.

Lemma analyze_component_unknown_witness :
  analyze_component (fun _ => Ok [lit "never read"]) (lit "team") (lit "deck") []
  = (Raise (KeyError (lit "team")), []).
Proof.
  apply analyze_component_unknown. vm_compute.
  intros H. repeat (destruct H as [H|H]; [discriminate H|]). exact H.
Defined.

End ComponentFacts.

(** ** The loop over the components *)

Module LoopFacts.

Import Analyzer Pipeline AnalyzerFacts DictFacts ComponentFacts.

Lemma dict_get_In (d : list (list N * value)) (k : str) (v : value) :
  NoDup (map fst d) -> In (k, v) d -> dict_get k d = Some v.
Proof.
  induction d as [|[k' v'] d IH]; cbn [map fst In dict_get]; [contradiction|].
  intros Hnd H. inversion Hnd as [|? ? Hk Hnd']; subst.
  destruct H as [H|H].
  - injection H as -> ->. now rewrite str_eqb_refl.
  - rewrite str_eqb_neq; [now apply IH|].
    intros ->. apply Hk. apply in_map_iff. now exists (k', v).
Qed.

Lemma components_NoDup : NoDup components.
Proof.
  vm_compute.
  repeat (constructor; [cbn [In]; intuition discriminate|]).
  constructor.
Qed.

Lemma components_length : length components = 10.
Proof. reflexivity. Qed.

Lemma standalone_reports_length create (content component : str) :
  length (standalone_reports create content component) <= 1.
Proof.
  unfold standalone_reports, analyze_component.
  destruct (dict_get_str component _) as [prompt|]; cbn [snd length]; [|lia].
  destruct (create (request_of prompt content)) as [m|e]; cbn [bind].
  - destruct m as [|t m'];
      cbn [first_text bind isinstance_Exception snd length app]; [lia|].
    destruct (interpret_dict t) as [d ->]. cbn [snd length]. lia.
  - destruct (isinstance_Exception e); cbn [snd length app]; lia.
Qed.

(** What a loop that ends normally has done. *)
Lemma analyze_all_inv create (content : str) (todo : list str) :
  forall (results : list (list N * value)) (errors : list str) r errors',
  NoDup todo ->
  (forall c, In c todo -> ~ In c (map fst results)) ->
  analyze_all create todo content results errors = (Ok r, errors') ->
  exists entries,
    r = results ++ entries
    /\ map fst entries = todo
    /\ (forall c v, In (c, v) entries ->
          fst (analyze_component create c content []) = Ok v)
    /\ errors' = errors ++ flat_map (standalone_reports create content) todo.
Proof.
  induction todo as [|c todo IH]; intros results errors r errors' Hnd Hfresh H.
  - cbn [analyze_all] in H. injection H as <- <-. exists [].
    cbn [flat_map]. rewrite !app_nil_r. repeat split. intros c v [].
  - cbn [analyze_all] in H. rewrite analyze_component_errors in H.
    destruct (fst (analyze_component create c content [])) as [v|e] eqn:Hc;
      [|discriminate].
    inversion Hnd as [|? ? Hc' Hnd']; subst.
    rewrite dict_set_fresh in H by (apply Hfresh; now left).
    apply IH in H; [|assumption|].
    + destruct H as (entries & -> & Hkeys & Hent & ->).
      exists ((c, v) :: entries). rewrite <- !app_assoc. cbn [app map fst flat_map].
      repeat split.
      * now rewrite Hkeys.
      * intros c0 v0 [H0|H0]; [injection H0 as <- <-; exact Hc|now apply Hent].
    + intros c0 Hin. rewrite map_app, in_app_iff. cbn [map fst In].
      intros [H0|[H0|[]]].
      * apply (Hfresh c0); [now right|exact H0].
      * subst c0. contradiction.
Qed.

(** A loop whose components all succeed ends normally. *)
Lemma analyze_all_progress create (content : str) (todo : list str) :
  forall (results : list (list N * value)) (errors : list str),
  (forall c, In c todo ->
     exists v, fst (analyze_component create c content []) = Ok v) ->
  exists r errors',
    analyze_all create todo content results errors = (Ok r, errors').
Proof.
  induction todo as [|c todo IH]; intros results errors Hok.
  - cbn [analyze_all]. eauto.
  - cbn [analyze_all]. rewrite analyze_component_errors.
    destruct (Hok c) as [v ->]; [now left|].
    apply IH. intros c0 Hin. apply Hok. now right.
Qed.

(** A component of the table succeeds unless the client raises an exception
    that is no instance of [Exception]. *)
Lemma component_succeeds create (component content : str) :
  (forall request e, create request = Raise e -> isinstance_Exception e = true) ->
  In component components ->
  exists v, fst (analyze_component create component content []) = Ok v.
Proof.
  intros Hsafe Hin. destruct (component_prompt _ Hin) as [prompt Hp].
  unfold analyze_component. rewrite Hp.
  destruct (create (request_of prompt content)) as [m|e] eqn:Hc; cbn [bind].
  - destruct m as [|t m']; cbn [first_text bind isinstance_Exception fst]; [eauto|].
    destruct (interpret_dict t) as [d ->]. cbn [fst]. eauto.
  - rewrite (Hsafe _ _ Hc). cbn [fst]. eauto.
Qed.

(** X5: when the client raises nothing but instances of [Exception], the loop
    of [main] ends normally with one entry for each of the ten components, in
    the order of the prompt table, and shows at most ten error reports. *)
Theorem analyze_deck_complete
    (create : request -> outcome (list (list N)))
    (content : str) (errors : list str) :
  (forall request e, create request = Raise e -> isinstance_Exception e = true) ->
  exists results errors',
    analyze_deck create content errors = (Ok results, errors')
    /\ map fst results = components
    /\ length results = 10
    /\ length errors <= length errors' <= length errors + 10.
Proof.
  intros Hsafe. unfold analyze_deck.
  destruct (analyze_all_progress create content components [] errors)
    as (r & errors' & H).
  { intros c Hin. now apply component_succeeds. }
  exists r, errors'. split; [exact H|].
  apply analyze_all_inv in H; [|apply components_NoDup|intros c _ []].
  destruct H as (entries & -> & Hkeys & Hent & ->). cbn [app].
  split; [exact Hkeys|]. split.
  { rewrite <- (length_map fst), Hkeys. reflexivity. }
  rewrite length_app.
  assert (Hlen : forall l,
             length (flat_map (standalone_reports create content) l) <= length l).
  { induction l as [|c l IH]; cbn [flat_map length]; [lia|].
    rewrite length_app.
    pose proof (standalone_reports_length create content c). lia. }
  specialize (Hlen components). rewrite components_length in Hlen. lia.
Qed.

Lemma analyze_deck_complete_witness :
  exists results errors',
    analyze_deck (fun _ => Raise (Foreign true (lit "Connection error.")))
      (lit "deck") []
    = (Ok results, errors')
    /\ map fst results = components
    /\ length results = 10
    /\ length (@nil (list N)) <= length errors' <= length (@nil (list N)) + 10.
Proof.
  apply (analyze_deck_complete
           (fun _ => Raise (Foreign true (lit "Connection error.")))
           (lit "deck") []).
  intros request e H. injection H as <-. reflexivity.
Defined.

(** X6: in the results of a loop that ended normally, the entry of each
    component is a dictionary, the one that [analyze_component] returns for
    this component alone, whatever the other calls did and whatever was
    reported before; and the reports are those of the components, in their
    order. *)
Theorem analyze_deck_entries
    (create : request -> outcome (list (list N)))
    (content : str) (errors : list str)
    (results : list (list N * value)) (errors' : list str) :
  analyze_deck create content errors = (Ok results, errors') ->
  (forall component, In component components ->
     exists d,
       dict_get component results = Some (VDict d)
       /\ forall errs,
            fst (analyze_component create component content errs) = Ok (VDict d))
  /\ errors' = errors ++ flat_map (standalone_reports create content) components.
Proof.
  unfold analyze_deck. intros H.
  apply analyze_all_inv in H; [|apply components_NoDup|intros c _ []].
  destruct H as (entries & -> & Hkeys & Hent & ->). cbn [app].
  split; [|reflexivity].
  intros c Hin. rewrite <- Hkeys in Hin. apply in_map_iff in Hin as ([c' v] & Hc & Hin).
  cbn [fst] in Hc. subst c'.
  pose proof (Hent _ _ Hin) as Hv.
  destruct (analyze_component_ok_dict _ _ _ _ _ Hv) as [d ->].
  exists d. split.
  - apply dict_get_In; [|exact Hin]. rewrite Hkeys. apply components_NoDup.
  - intros errs. rewrite analyze_component_errors. exact Hv.
Qed.

Lemma analyze_deck_entries_witness :
  exists d,
    dict_get (lit "channels")
      (map (fun c => (c, result 64 (lit "Fair"))) components)
    = Some (VDict d).
Proof.
  destruct (analyze_deck_entries
              (fun _ => Ok [qlit "{'score': 64, 'feedback': 'Fair'}"])
              (lit "deck") []
              (map (fun c => (c, result 64 (lit "Fair"))) components) [])
    as [H _].
  - vm_compute. reflexivity.
  - destruct (H (lit "channels")) as (d & Hd & _); [vm_compute; tauto|].
    exists d. exact Hd.
Defined.

Lemma analyze_all_abort create (content : str) (pre : list str) :
  forall (c : str) (post : list str) (results : list (list N * value))
         (errors : list str) (e : exn),
  (forall c', In c' pre ->
     exists v, fst (analyze_component create c' content []) = Ok v) ->
  fst (analyze_component create c content []) = Raise e ->
  analyze_all create (pre ++ c :: post) content results errors
  = (Raise e,
     errors ++ flat_map (standalone_reports create content) (pre ++ [c])).
Proof.
  induction pre as [|c0 pre IH]; intros c post results errors e Hpre Hc.
  - cbn [app analyze_all flat_map]. rewrite analyze_component_errors, Hc.
    unfold standalone_reports. now rewrite app_nil_r.
  - cbn [app analyze_all flat_map]. rewrite analyze_component_errors.
    destruct (Hpre c0) as [v ->]; [now left|].
    rewrite (IH c post _ _ e); [|intros c' Hin; apply Hpre; now right|exact Hc].
    unfold standalone_reports at 2. now rewrite app_assoc.
Qed.

(** X7: when the call for one component raises an exception that is no
    instance of [Exception], while the calls for the components before it
    raise nothing else than instances of [Exception], the exception leaves
    [analyze_component] and then the loop: the components after it are not
    analyzed, the results of the components before it are not returned, and
    only their reports were shown. *)
Theorem analyze_deck_abort
    (create : request -> outcome (list (list N)))
    (content : str) (errors : list str)
    (pre : list str) (component : str) (post : list str)
    (prompt : str) (e : exn) :
  components = pre ++ component :: post ->
  (forall c' prompt' e',
     In c' pre ->
     dict_get_str c' Prompts.BUSINESS_MODEL_CANVAS_PROMPTS = Some prompt' ->
     create (request_of prompt' content) = Raise e' ->
     isinstance_Exception e' = true) ->
  dict_get_str component Prompts.BUSINESS_MODEL_CANVAS_PROMPTS = Some prompt ->
  create (request_of prompt content) = Raise e ->
  isinstance_Exception e = false ->
  analyze_deck create content errors
  = (Raise e, errors ++ flat_map (standalone_reports create content) pre).
Proof.
  intros Hsplit Hsafe Hp Hc He. unfold analyze_deck. rewrite Hsplit.
  assert (Hraise : analyze_component create component content []
                   = (Raise e, [])).
  { unfold analyze_component. rewrite Hp, Hc. cbn [bind]. now rewrite He. }
  rewrite (analyze_all_abort create content pre component post [] errors e).
  - rewrite flat_map_app. cbn [flat_map]. unfold standalone_reports at 2.
    rewrite Hraise. cbn [snd]. now rewrite !app_nil_r.
  - intros c' Hin.
    assert (Hin' : In c' components).
    { rewrite Hsplit. apply in_or_app. now left. }
    destruct (component_prompt _ Hin') as [prompt' Hp'].
    unfold analyze_component. rewrite Hp'.
    destruct (create (request_of prompt' content)) as [m|e'] eqn:Hc'; cbn [bind].
    + destruct m as [|t m']; cbn [first_text bind isinstance_Exception fst]; [eauto|].
      destruct (interpret_dict t) as [d ->]. cbn [fst]. eauto.
    + rewrite (Hsafe _ _ _ Hin Hp' Hc'). cbn [fst]. eauto.
  - now rewrite Hraise.
Qed.

Lemma analyze_deck_abort_witness :
  analyze_deck
    (fun request =>
       if str_eqb (snd (hd ([], []) (messages request)))
            (user_content
               (match dict_get_str (lit "overview")
                        Prompts.BUSINESS_MODEL_CANVAS_PROMPTS with
                | Some p => p
                | None => []
                end) (lit "deck"))
       then Ok [qlit "{'score': 90, 'feedback': 'Strong'}"]
       else Raise (Foreign false (lit "")))
    (lit "deck") []
  = (Raise (Foreign false (lit "")), []).
Proof.
  destruct (component_prompt (lit "key_partners")) as [prompt Hp];
    [vm_compute; tauto|].
  rewrite (analyze_deck_abort _ (lit "deck") [] [lit "overview"]
             (lit "key_partners") (skipn 2 components) prompt
             (Foreign false (lit ""))).
  - vm_compute. reflexivity.
  - reflexivity.
  - intros c' prompt' e' [<-|[]] Hp' Hc'. vm_compute in Hp'.
    injection Hp' as <-. vm_compute in Hc'. discriminate.
  - exact Hp.
  - vm_compute in Hp. injection Hp as <-. vm_compute. reflexivity.
  - reflexivity.
Defined.

End LoopFacts.

(** ** The preview, the colours and the listings *)

From Stdlib Require Import Permutation Sorted.

Module ReportFacts.

Import Analyzer Summary Pipeline Report.

(** X8: the preview of the extracted text is the text itself when it has at
    most 1000 characters, and otherwise its first 1000 characters followed by
    three dots; it never has more than 1003 characters and always starts as
    the text does. *)
Theorem preview_bounded (extracted_text : str) :
  length (preview extracted_text) <= 1003
  /\ firstn 1000 (preview extracted_text) = firstn 1000 extracted_text
  /\ (length extracted_text <= 1000 -> preview extracted_text = extracted_text)
  /\ (1000 < length extracted_text ->
      preview extracted_text = firstn 1000 extracted_text ++ lit "..."
      /\ length (preview extracted_text) = 1003).
Proof.
  unfold preview.
  destruct (Nat.ltb_spec 1000 (length extracted_text)) as [H|H].
  - assert (Hl : length (firstn 1000 extracted_text) = 1000).
    { rewrite length_firstn. lia. }
    assert (Hp : length (firstn 1000 extracted_text ++ lit "...") = 1003).
    { rewrite length_app, Hl. reflexivity. }
    split; [lia|]. split; [|split; [lia|now split]].
    rewrite firstn_app, Hl, Nat.sub_diag, firstn_O, app_nil_r.
    now rewrite firstn_firstn.
  - split; [lia|]. split; [reflexivity|]. split; [reflexivity|lia].
Qed.

Lemma preview_bounded_witness :
  preview (lit "Slide 1: we sell widgets") = lit "Slide 1: we sell widgets".
Proof.
  apply (proj1 (proj2 (proj2 (preview_bounded (lit "Slide 1: we sell widgets"))))).
  apply Nat.leb_le. reflexivity.
Defined.

(** X9: in the detailed view the colour of the improvement priority is the
    colour of the score, the one of the bar chart, for every score. *)
Theorem priority_color_is_score_color (score : Z) :
  priority_color (priority score) = score_color score.
Proof.
  unfold priority, score_color.
  destruct (80 <=? score)%Z; [reflexivity|].
  destruct (70 <=? score)%Z; reflexivity.
Qed.

Lemma color_cases (s : Z) :
  ((80 <=? s)%Z = true /\ (s <? 70)%Z = false /\ score_color s = lit "green")
  \/ ((80 <=? s)%Z = false /\ (s <? 70)%Z = false /\ score_color s = lit "orange")
  \/ ((80 <=? s)%Z = false /\ (s <? 70)%Z = true /\ score_color s = lit "red").
Proof.
  unfold score_color.
  destruct (Z.leb_spec 80 s); [left|destruct (Z.leb_spec 70 s); [right; left|right; right]];
    repeat split; try reflexivity;
    try (apply Z.ltb_ge; lia); apply Z.ltb_lt; lia.
Qed.

(** X10: the two counts of the dashboard are the counts of the colours: the
    strengths are the green scores, the weaknesses the red ones, and every
    score is green, orange or red, so that no score is counted twice and the
    scores counted nowhere are the orange ones. *)
Theorem metrics_match_colors (scores : list Z) :
  strengths scores
  = length (filter (fun s => str_eqb (score_color s) (lit "green")) scores)
  /\ weaknesses scores
     = length (filter (fun s => str_eqb (score_color s) (lit "red")) scores)
  /\ strengths scores + weaknesses scores
     + length (filter (fun s => str_eqb (score_color s) (lit "orange")) scores)
     = length scores.
Proof.
  unfold strengths, weaknesses.
  induction scores as [|s scores (IH1 & IH2 & IH3)]; [repeat split|].
  cbn [filter].
  destruct (color_cases s) as [(A & B & C)|[(A & B & C)|(A & B & C)]];
    rewrite A, B, C.
  - change (str_eqb (lit "green") (lit "green")) with true.
    change (str_eqb (lit "green") (lit "red")) with false.
    change (str_eqb (lit "green") (lit "orange")) with false.
    cbn [length]. repeat split; lia.
  - change (str_eqb (lit "orange") (lit "green")) with false.
    change (str_eqb (lit "orange") (lit "red")) with false.
    change (str_eqb (lit "orange") (lit "orange")) with true.
    cbn [length]. repeat split; lia.
  - change (str_eqb (lit "red") (lit "green")) with false.
    change (str_eqb (lit "red") (lit "red")) with true.
    change (str_eqb (lit "red") (lit "orange")) with false.
    cbn [length]. repeat split; lia.
Qed.

End ReportFacts.

(** ** The sorted listings *)

Module ListingFacts.

Import Analyzer Summary Report.

Lemma keyed_scores (results : list (list N * value)) (zs : list Z) :
  scores_of results = Some zs ->
  exists l, keyed results = Some l /\ map snd l = results /\ map fst l = zs
            /\ Forall (fun x => score_of (snd (snd x)) = Some (fst x)) l.
Proof.
  revert zs. induction results as [|[c d] results IH]; intros zs; cbn [scores_of keyed].
  - intros H; injection H as <-. exists []. repeat split. constructor.
  - destruct (score_of d) as [z|] eqn:Hz; [|discriminate].
    destruct (scores_of results) as [zs'|]; [|discriminate].
    intros H; injection H as <-.
    destruct (IH zs' eq_refl) as (l & -> & Hs & Hf & Hk).
    exists ((z, (c, d)) :: l). cbn [map fst snd]. rewrite Hs, Hf.
    repeat split. constructor; [exact Hz|exact Hk].
Qed.

Lemma insert_perm x l : Permutation (insert_by_key x l) (x :: l).
Proof.
  induction l as [|y l IH]; cbn [insert_by_key]; [reflexivity|].
  destruct (fst y <? fst x)%Z; [|reflexivity].
  rewrite IH. apply perm_swap.
Qed.

Lemma sort_perm l : Permutation (sort_by_key l) l.
Proof.
  induction l as [|x l IH]; cbn [sort_by_key]; [reflexivity|].
  rewrite insert_perm. now constructor.
Qed.

Lemma insert_sorted x l :
  StronglySorted (fun a b => (fst a <= fst b)%Z) l ->
  StronglySorted (fun a b => (fst a <= fst b)%Z) (insert_by_key x l).
Proof.
  induction l as [|y l IH]; intros Hs; cbn [insert_by_key].
  - repeat constructor.
  - inversion Hs as [|? ? Hs' Hy]; subst.
    destruct (Z.ltb_spec (fst y) (fst x)) as [H|H].
    + constructor; [now apply IH|].
      rewrite Forall_forall. intros z Hz.
      apply (Permutation_in _ (insert_perm x l)) in Hz.
      destruct Hz as [<-|Hz]; [lia|].
      rewrite Forall_forall in Hy. now apply Hy.
    + constructor; [exact Hs|]. constructor; [exact H|].
      rewrite Forall_forall in Hy |- *. intros z Hz. specialize (Hy z Hz). lia.
Qed.

Lemma sort_sorted l :
  StronglySorted (fun a b => (fst a <= fst b)%Z) (sort_by_key l).
Proof.
  induction l as [|x l IH]; cbn [sort_by_key]; [constructor|].
  now apply insert_sorted.
Qed.

(** The sort is stable: the items of one key are in the order they had. *)
Lemma insert_stable (k : Z) x l :
  filter (fun y => (fst y =? k)%Z) (insert_by_key x l)
  = filter (fun y => (fst y =? k)%Z) (x :: l).
Proof.
  induction l as [|y l IH]; cbn [insert_by_key]; [reflexivity|].
  destruct (Z.ltb_spec (fst y) (fst x)) as [H|H]; [|reflexivity].
  cbn [filter] in IH |- *. rewrite IH.
  destruct (Z.eqb_spec (fst x) k) as [Hx|Hx]; [|reflexivity].
  destruct (Z.eqb_spec (fst y) k) as [Hy|Hy]; [lia|reflexivity].
Qed.

Lemma sort_stable (k : Z) l :
  filter (fun y => (fst y =? k)%Z) (sort_by_key l)
  = filter (fun y => (fst y =? k)%Z) l.
Proof.
  induction l as [|x l IH]; cbn [sort_by_key]; [reflexivity|].
  rewrite insert_stable. cbn [filter]. now rewrite IH.
Qed.

Lemma filter_rev {A} (p : A -> bool) (l : list A) :
  filter p (rev l) = rev (filter p l).
Proof.
  induction l as [|x l IH]; [reflexivity|].
  cbn [rev filter]. rewrite filter_app, IH. cbn [filter].
  destruct (p x); [reflexivity|]. now rewrite app_nil_r.
Qed.

Lemma sorted_rev {A} (R : A -> A -> Prop) (l : list A) :
  StronglySorted R l -> StronglySorted (fun a b => R b a) (rev l).
Proof.
  induction 1 as [|x l Hs IH Hx]; [constructor|].
  cbn [rev].
  assert (Happ : forall l1 l2,
             StronglySorted (fun a b => R b a) l1 ->
             StronglySorted (fun a b => R b a) l2 ->
             (forall a b, In a l1 -> In b l2 -> R b a) ->
             StronglySorted (fun a b => R b a) (l1 ++ l2)).
  { induction l1 as [|a l1 IH1]; intros l2 H1 H2 H12; [exact H2|].
    inversion H1 as [|? ? H1' Ha]; subst. cbn [app]. constructor.
    - apply IH1; [exact H1'|exact H2|].
      intros a' b Ha' Hb. apply H12; [now right|exact Hb].
    - apply Forall_app. split; [exact Ha|].
      rewrite Forall_forall. intros b Hb. apply H12; [now left|exact Hb]. }
  apply Happ; [exact IH|repeat constructor|].
  intros a b Ha [<-|[]]. rewrite Forall_forall in Hx. apply Hx.
  now apply in_rev.
Qed.



(** X11: [sorted] by score, in either direction, returns the items of the
    dictionary, all of them and nothing else, in the order of their scores
    (not increasing with [reverse], not decreasing without), and items of the
    same score in the order of the dictionary. *)
Theorem sorted_by_score_spec (reverse : bool)
    (results : list (list N * value)) (zs : list Z) :
  scores_of results = Some zs ->
  exists l,
    sorted_by_score reverse results = Some l
    /\ Permutation (map snd l) results
    /\ Forall (fun x => score_of (snd (snd x)) = Some (fst x)) l
    /\ StronglySorted
         (fun a b => if reverse then (fst b <= fst a)%Z else (fst a <= fst b)%Z) l
    /\ forall k,
         map snd (filter (fun x => (fst x =? k)%Z) l)
         = filter (fun r => match score_of (snd r) with
                            | Some z => (z =? k)%Z
                            | None => false
                            end) results.
Proof.
  intros Hz. destruct (keyed_scores _ _ Hz) as (kl & Hk & Hsnd & Hfst & Hkeys).
  unfold sorted_by_score. rewrite Hk.
  assert (Hfilter : forall k,
             map snd (filter (fun x => (fst x =? k)%Z) kl)
             = filter (fun r => match score_of (snd r) with
                                | Some z => (z =? k)%Z
                                | None => false
                                end) results).
  { intros k. rewrite <- Hsnd. clear - Hkeys.
    induction Hkeys as [|x l Hx Hl IH]; [reflexivity|].
    cbn [filter map]. rewrite Hx.
    destruct (fst x =? k)%Z; cbn [map]; now rewrite IH. }
  destruct reverse.
  - exists (rev (sort_by_key (rev kl))). split; [reflexivity|].
    assert (Hp : Permutation (rev (sort_by_key (rev kl))) kl).
    { rewrite <- Permutation_rev, sort_perm. symmetry. apply Permutation_rev. }
    split; [rewrite <- Hsnd; now apply Permutation_map|].
    split.
    { rewrite Forall_forall in Hkeys |- *. intros x Hx. apply Hkeys.
      now apply (Permutation_in _ Hp). }
    split; [apply sorted_rev, sort_sorted|].
    intros k. rewrite filter_rev, sort_stable, filter_rev, rev_involutive.
    apply Hfilter.
  - exists (sort_by_key kl). split; [reflexivity|].
    split; [rewrite <- Hsnd; apply Permutation_map, sort_perm|].
    split.
    { rewrite Forall_forall in Hkeys |- *. intros x Hx. apply Hkeys.
      now apply (Permutation_in _ (sort_perm kl)). }
    split; [apply sort_sorted|].
    intros k. rewrite sort_stable. apply Hfilter.
Qed.

Lemma sorted_by_score_spec_witness :
  exists l,
    sorted_by_score true
      [(lit "overview", result 72 []); (lit "channels", result 91 [])] = Some l
    /\ Permutation (map snd l)
         [(lit "overview", result 72 []); (lit "channels", result 91 [])].
Proof.
  destruct (sorted_by_score_spec true
              [(lit "overview", result 72 []); (lit "channels", result 91 [])]
              [72; 91]%Z eq_refl) as (l & H1 & H2 & _).
  exists l. split; assumption.
Defined.




End ListingFacts.

(** ** The extension of a file name *)

Module SplitextFacts.

Import Extractor.

Lemma rfind_from_spec (c : N) (p : str) :
  forall i last,
    (rfind_from c p i last = last /\ ~ In c p)
    \/ exists a b,
         p = a ++ c :: b /\ ~ In c b
         /\ rfind_from c p i last = (i + Z.of_nat (length a))%Z.
Proof.
  induction p as [|x p IH]; intros i last; cbn [rfind_from].
  - left. split; [reflexivity|intros []].
  - destruct (IH (i + 1)%Z (if (x =? c)%N then i else last))
      as [[Hr Hn]|(a & b & -> & Hb & Hr)].
    + destruct (N.eqb_spec x c) as [->|Hx].
      * right. exists [], p. cbn [app length].
        split; [reflexivity|]. split; [exact Hn|]. rewrite Hr. lia.
      * left. split; [exact Hr|]. intros [H|H]; [congruence|contradiction].
    + right. exists (x :: a), b. cbn [app length].
      split; [reflexivity|]. split; [exact Hb|]. rewrite Hr. lia.
Qed.

Lemma rfind_spec (c : N) (p : str) :
  (rfind c p = (-1)%Z /\ ~ In c p)
  \/ exists a b,
       p = a ++ c :: b /\ ~ In c b /\ rfind c p = Z.of_nat (length a).
Proof.
  unfold rfind. destruct (rfind_from_spec c p 0 (-1)) as [H|(a & b & H1 & H2 & H3)];
    [now left|].
  right. exists a, b. split; [exact H1|]. split; [exact H2|]. rewrite H3. lia.
Qed.

Lemma skipn_app_exact {A} (a b : list A) : skipn (length a) (a ++ b) = b.
Proof. induction a; [reflexivity|assumption]. Qed.

Lemma firstn_app_exact {A} (a b : list A) : firstn (length a) (a ++ b) = a.
Proof. induction a as [|x a IH]; [reflexivity|cbn; now rewrite IH]. Qed.

Lemma in_skipn {A} (x : A) (n : nat) (l : list A) : In x (skipn n l) -> In x l.
Proof.
  intros H. rewrite <- (firstn_skipn n l). apply in_or_app. now right.
Qed.

(** X13: [splitext] cuts a name in two parts that give the name back when
    joined; the extension is empty or begins with a dot, and holds no other
    dot and no slash. *)
Theorem splitext_parts (p : str) :
  fst (splitext p) ++ snd (splitext p) = p
  /\ (snd (splitext p) = []
      \/ exists e, snd (splitext p) = 46%N :: e
                   /\ ~ In 46%N e /\ ~ In 47%N e).
Proof.
  unfold splitext.
  destruct (rfind_spec 46 p) as [[Hd Hnd]|(a & b & Hp & Hb & Hd)].
  - rewrite Hd.
    destruct (Z.ltb_spec (rfind 47 p) (-1)) as [Hlt|Hge];
      [|cbn [fst snd]; split; [apply app_nil_r|now left]].
    exfalso. destruct (rfind_spec 47 p) as [[Hs _]|(a' & b' & _ & _ & Hs)]; lia.
  - rewrite Hd, Nat2Z.id.
    destruct (rfind 47 p <? Z.of_nat (length a))%Z eqn:Hlt;
      [|cbn [fst snd]; split; [apply app_nil_r|now left]].
    destruct (existsb _ _); cbn [fst snd];
      [|split; [apply app_nil_r|now left]].
    split; [apply firstn_skipn|]. right. exists b.
    rewrite Hp, skipn_app_exact. split; [reflexivity|]. split; [exact Hb|].
    apply Z.ltb_lt in Hlt.
    destruct (rfind_spec 47 p) as [[Hs Hns]|(a' & b' & Hp' & Hb' & Hs)].
    + intros Hin. apply Hns. rewrite Hp. apply in_or_app. right. now right.
    + rewrite Hs in Hlt. intros Hin. apply Hb'.
      assert (Hb1 : b' = skipn (S (length a')) p).
      { rewrite Hp'. change (S (length a')) with (1 + length a').
        now rewrite <- skipn_skipn, skipn_app_exact. }
      assert (Hb2 : b = skipn (S (length a)) p).
      { rewrite Hp. change (S (length a)) with (1 + length a).
        now rewrite <- skipn_skipn, skipn_app_exact. }
      rewrite Hb1. rewrite Hb2 in Hin.
      replace (S (length a)) with ((length a - length a') + S (length a')) in Hin
        by lia.
      rewrite <- skipn_skipn in Hin. now apply in_skipn in Hin.
Qed.

End SplitextFacts.

(** ** Pages and shapes *)

Module PagesFacts.

Import Extractor Shapes.

Lemma pdf_pages_first_failure (texts : list str) (e : exn)
    (rest : list (outcome (list N))) :
  forall page_num extracted_text,
    pdf_pages (map Ok texts ++ Raise e :: rest) page_num extracted_text = Raise e.
Proof.
  induction texts as [|t texts IH]; intros page_num extracted_text;
    cbn [map app pdf_pages bind]; [reflexivity|apply IH].
Qed.

Lemma slide_shapes_textless (shapes : list (option (list N))) :
  forall extracted_text,
    slide_shapes (filter has_text shapes) extracted_text
    = slide_shapes shapes extracted_text.
Proof.
  induction shapes as [|shape shapes IH]; intros extracted_text; [reflexivity|].
  destruct shape as [[|c t]|]; cbn [filter has_text slide_shapes]; apply IH.
Qed.

Lemma pptx_slides_textless (slides : list (list (option (list N)))) :
  forall slide_num extracted_text,
    pptx_slides (map (filter has_text) slides) slide_num extracted_text
    = pptx_slides slides slide_num extracted_text.
Proof.
  induction slides as [|slide slides IH]; intros slide_num extracted_text;
    [reflexivity|].
  cbn [map pptx_slides]. now rewrite slide_shapes_textless, IH.
Qed.

(** X14: when a page of a PDF fails, the exception of the first such page
    leaves [extract_text_from_file], whatever the pages after it hold; the
    text of the pages before it is lost and the temporary file is removed. *)
Theorem extract_pdf_first_failure
    (lower : list N -> list N)
    (PdfReader : list Byte.byte -> outcome (list (outcome (list N))))
    (Presentation : list Byte.byte -> outcome (list (list (option (list N)))))
    (Document : list Byte.byte -> outcome (list (list N)))
    (uploaded_file : UploadedFile) (fs : list N)
    (texts : list (list N)) (e : exn) (rest : list (outcome (list N))) :
  lower (snd (splitext (name uploaded_file))) = lit ".pdf" ->
  PdfReader (getvalue uploaded_file) = Ok (map Ok texts ++ Raise e :: rest) ->
  extract_text_from_file lower PdfReader Presentation Document uploaded_file fs
  = (Raise e, fs).
Proof.
  intros Hext Hpages. unfold extract_text_from_file.
  rewrite unlink_fresh, Hext. unfold extract_body.
  change (str_eqb (lit ".pdf") (lit ".pdf")) with true. cbv iota.
  rewrite Hpages. cbn [bind]. now rewrite pdf_pages_first_failure.
Qed.

Lemma extract_pdf_first_failure_witness :
  extract_text_from_file ascii_lower
    (fun _ => Ok [Ok (lit "Problem"); Raise (Foreign true (lit "bad stream"));
                  Raise (Foreign true (lit "never reached"))])
    (fun _ => Ok []) (fun _ => Ok [])
    {| name := lit "deck.pdf"; getvalue := [] |} [7%N]
  = (Raise (Foreign true (lit "bad stream")), [7%N]).
Proof.
  apply (extract_pdf_first_failure ascii_lower _ _ _ _ _ [lit "Problem"]
           (Foreign true (lit "bad stream"))
           [Raise (Foreign true (lit "never reached"))]);
    reflexivity.
Defined.

(** X15: in a presentation the shapes without a [text] attribute and the
    shapes whose text is empty leave no trace in the extracted text, not even
    an empty line: the text is the one of the presentation without them. *)
Theorem extract_pptx_textless
    (lower : list N -> list N)
    (PdfReader : list Byte.byte -> outcome (list (outcome (list N))))
    (Presentation : list Byte.byte -> outcome (list (list (option (list N)))))
    (Document : list Byte.byte -> outcome (list (list N)))
    (uploaded_file : UploadedFile) (fs : list N)
    (slides : list (list (option (list N)))) :
  lower (snd (splitext (name uploaded_file))) = lit ".pptx" ->
  Presentation (getvalue uploaded_file) = Ok slides ->
  extract_text_from_file lower PdfReader Presentation Document uploaded_file fs
  = extract_text_from_file lower PdfReader
      (fun _ => Ok (map (filter has_text) slides)) Document uploaded_file fs.
Proof.
  intros Hext Hslides. unfold extract_text_from_file.
  rewrite Hext. unfold extract_body.
  change (str_eqb (lit ".pptx") (lit ".pdf")) with false.
  change (str_eqb (lit ".pptx") (lit ".pptx")) with true. cbv iota.
  rewrite Hslides. cbn [bind]. now rewrite pptx_slides_textless.
Qed.

Lemma extract_pptx_textless_witness :
  extract_text_from_file ascii_lower (fun _ => Ok [])
    (fun _ => Ok [[Some (lit "Title"); None; Some []; Some (lit "Body")]])
    (fun _ => Ok [])
    {| name := lit "deck.pptx"; getvalue := [] |} []
  = extract_text_from_file ascii_lower (fun _ => Ok [])
      (fun _ => Ok (map (filter has_text)
                      [[Some (lit "Title"); None; Some []; Some (lit "Body")]]))
      (fun _ => Ok [])
      {| name := lit "deck.pptx"; getvalue := [] |} [].
Proof.
  apply (extract_pptx_textless ascii_lower); reflexivity.
Defined.

End PagesFacts.

(** ** What the two patterns capture *)

Module CaptureFacts.

Import Re Analyzer ReFacts AnalyzerFacts.




End CaptureFacts.

(** ** The mean *)

Module MeanFacts.

Import Summary.




End MeanFacts.

(** ** The export is read back by [json.loads] *)

Module DumpsFacts.

Import Json Dumps JsonFacts DictFacts.

Local Open Scope N_scope.

Ltac divmod := zify; Z.to_euclidean_division_equations; lia.


(** *** Hexadecimal escapes *)











(** *** Integers *)

Lemma nat_value_snoc (ds : str) (d : N) :
  nat_value (ds ++ [d]) = (nat_value ds * 10 + Z.of_N (d - 48))%Z.
Proof.
  unfold nat_value. now rewrite fold_left_app.
Qed.

Lemma digits_of_S (fuel : nat) (n : N) (acc : str) :
  digits_of (S fuel) n acc
  = if n / 10 =? 0 then (48 + n mod 10) :: acc
    else digits_of fuel (n / 10) ((48 + n mod 10) :: acc).
Proof. reflexivity. Qed.

Lemma last_digit (n : N) : is_digit09 (48 + n mod 10) = true.
Proof.
  unfold is_digit09; apply andb_true_iff; split; apply N.leb_le; divmod.
Qed.

Lemma digits_of_spec (fuel : nat) :
  forall n acc, n < 2 ^ N.of_nat (S fuel) ->
  exists d ds,
    digits_of (S fuel) n acc = d :: ds ++ acc
    /\ is_digit09 d = true /\ forallb is_digit09 ds = true
    /\ (n = 0 -> d = 48 /\ ds = []) /\ (n <> 0 -> 49 <= d)
    /\ nat_value (d :: ds) = Z.of_N n.
Proof.
  induction fuel as [|fuel IH]; intros n acc Hn.
  - change (2 ^ N.of_nat 1) with 2 in Hn.
    exists (48 + n mod 10), []. rewrite digits_of_S. cbn [digits_of app].
    split; [now destruct (n / 10 =? 0)|].
    split; [apply last_digit|].
    split; [reflexivity|].
    split; [intros ->; split; reflexivity|].
    split; [intros; divmod|].
    unfold nat_value. cbn [fold_left]. divmod.
  - destruct (n / 10 =? 0) eqn:Hz0.
    + apply N.eqb_eq in Hz0.
      exists (48 + n mod 10), []. rewrite digits_of_S.
      rewrite (proj2 (N.eqb_eq _ _) Hz0). cbn [app].
      split; [reflexivity|].
      split; [apply last_digit|].
      split; [reflexivity|].
      split; [intros ->; split; reflexivity|].
      split; [intros; divmod|].
      unfold nat_value. cbn [fold_left]. divmod.
    + assert (Hz : n / 10 <> 0) by now apply N.eqb_neq.
      assert (Hn' : n / 10 < 2 ^ N.of_nat (S fuel)).
      { rewrite (Nat2N.inj_succ (S fuel)), N.pow_succ_r' in Hn.
        revert Hn. generalize (2 ^ N.of_nat (S fuel)). intros p Hp. divmod. }
      destruct (IH (n / 10) ((48 + n mod 10) :: acc) Hn')
        as (d & ds & E & Hd & Hds & _ & Hpos & Hval).
      exists d, (ds ++ [48 + n mod 10]).
      split; [rewrite digits_of_S, Hz0, E, <- app_assoc; reflexivity|].
      split; [exact Hd|].
      split.
      { rewrite forallb_app, Hds. cbn [forallb andb]. rewrite andb_true_r.
        apply last_digit. }
      split; [intros ->; now destruct Hz|].
      split; [intros _; now apply Hpos|].
      change (d :: ds ++ [48 + n mod 10]) with ((d :: ds) ++ [48 + n mod 10]).
      rewrite nat_value_snoc, Hval. divmod.
Qed.

(** [str(n)] is a run of digits without a leading zero, whose value is
    [n]. *)
Lemma str_of_N_spec (n : N) :
  exists d ds,
    str_of_N n = d :: ds
    /\ is_digit09 d = true /\ forallb is_digit09 ds = true
    /\ (n = 0 -> d = 48 /\ ds = []) /\ (n <> 0 -> 49 <= d)
    /\ nat_value (d :: ds) = Z.of_N n.
Proof.
  assert (Hn : n < 2 ^ N.of_nat (S (N.to_nat (N.log2 n)))).
  { rewrite Nat2N.inj_succ, N2Nat.id.
    destruct (N.eq_dec n 0) as [->|Hz]; [reflexivity|].
    apply N.log2_spec. lia. }
  destruct (digits_of_spec _ n [] Hn) as (d & ds & E & H).
  exists d, ds. split; [|exact H].
  unfold str_of_N. now rewrite E, app_nil_r.
Qed.









(** *** Whitespace and first characters *)





Lemma ends_number_newline (level : nat) (s : str) :
  ends_number (newline_indent level ++ s) = true.
Proof. reflexivity. Qed.

Lemma join_items_cons (sep t t' : str) (ts : list (list N)) :
  join_items sep (t :: t' :: ts) = t ++ sep ++ join_items sep (t' :: ts).
Proof. reflexivity. Qed.




(** *** The equations of the decoder *)







(** *** The equations of the encoder *)

Lemma traverse_cons {A B : Type} (f : A -> option B) (x : A) (l : list A) :
  traverse f (x :: l)
  = match f x, traverse f l with
    | Some t, Some ts => Some (t :: ts)
    | _, _ => None
    end.
Proof. reflexivity. Qed.

Lemma traverse_cons_inv {A B : Type} (f : A -> option B) (x : A) (l : list A)
    (ts : list B) :
  traverse f (x :: l) = Some ts ->
  exists t ts', ts = t :: ts' /\ f x = Some t /\ traverse f l = Some ts'.
Proof.
  rewrite traverse_cons. destruct (f x) as [t|]; [|discriminate].
  destruct (traverse f l) as [ts'|]; [|discriminate].
  intros H; injection H as <-. eauto.
Qed.


Lemma iterencode_list (level : nat) (x : value) (l : list value) :
  iterencode level (VList (x :: l))
  = match traverse (iterencode (S level)) (x :: l) with
    | Some ts =>
        Some (91 :: newline_indent (S level)
              ++ join_items (44 :: newline_indent (S level)) ts
              ++ newline_indent level ++ [93])
    | None => None
    end.
Proof. reflexivity. Qed.

Lemma iterencode_dict (level : nat) (kv : list N * value) (d : list (list N * value)) :
  iterencode level (VDict (kv :: d))
  = match
      traverse (fun kv => option_map (member_text (fst kv))
                            (iterencode (S level) (snd kv))) (kv :: d)
    with
    | Some ts =>
        Some (123 :: newline_indent (S level)
              ++ join_items (44 :: newline_indent (S level)) ts
              ++ newline_indent level ++ [125])
    | None => None
    end.
Proof. reflexivity. Qed.



Lemma value_induction (P : value -> Prop) :
  P VNone -> (forall b, P (VBool b)) -> (forall z, P (VInt z)) ->
  (forall x, P (VFloat x)) -> P VNaN -> (forall n, P (VInf n)) ->
  (forall s, P (VStr s)) ->
  (forall l, Forall P l -> P (VList l)) ->
  (forall d, Forall (fun kv => P (snd kv)) d -> P (VDict d)) ->
  forall v, P v.
Proof.
  intros HNone HBool HInt HFloat HNaN HInf HStr HList HDict.
  exact (fix go (v : value) : P v :=
           match v with
           | VNone => HNone
           | VBool b => HBool b
           | VInt z => HInt z
           | VFloat x => HFloat x
           | VNaN => HNaN
           | VInf n => HInf n
           | VStr s => HStr s
           | VList l =>
               HList l
                 ((fix all (l : list value) : Forall P l :=
                     match l with
                     | [] => Forall_nil P
                     | x :: l' => Forall_cons x (go x) (all l')
                     end) l)
           | VDict d =>
               HDict d
                 ((fix all (d : list (list N * value))
                     : Forall (fun kv => P (snd kv)) d :=
                     match d with
                     | [] => Forall_nil _
                     | kv :: d' =>
                         @Forall_cons _ (fun kv => P (snd kv)) kv d'
                           (go (snd kv)) (all d')
                     end) d)
           end).
Qed.

Ltac len H :=
  do 4 (rewrite ?length_app in H; rewrite ?length_app; cbn [length] in H |- *).

(** *** Arrays and objects *)




(** *** Every exportable value *)

Lemma some_inj {A : Type} (a b : A) : Some a = Some b -> a = b.
Proof. congruence. Qed.





(** *** The export holds ASCII characters only *)

Lemma hexdigit_ascii (k : N) : k < 16 -> is_ascii (hexdigit k) = true.
Proof.
  intros Hk. unfold is_ascii, hexdigit. apply N.ltb_lt.
  destruct (k <? 10); lia.
Qed.

Lemma u_escape_ascii (n : N) : forallb is_ascii (u_escape n) = true.
Proof.
  unfold u_escape. cbn [forallb].
  rewrite !hexdigit_ascii by (apply N.mod_lt; discriminate). reflexivity.
Qed.

Lemma escape_char_ascii (c : N) : forallb is_ascii (escape_char c) = true.
Proof.
  unfold escape_char.
  repeat match goal with
         | |- context [if (?a =? ?b) then _ else _] =>
             destruct (a =? b); [reflexivity|]
         end.
  destruct ((32 <=? c) && (c <=? 126)) eqn:Hp.
  - apply andb_true_iff in Hp as [_ Hb]. apply N.leb_le in Hb.
    cbn [forallb]. unfold is_ascii.
    rewrite (proj2 (N.ltb_lt c 128)) by lia. reflexivity.
  - destruct (c <? 65536); [apply u_escape_ascii|].
    cbv zeta. now rewrite forallb_app, !u_escape_ascii.
Qed.

Lemma encode_string_ascii (s : str) : forallb is_ascii (encode_string s) = true.
Proof.
  unfold encode_string. cbn [forallb]. rewrite forallb_app.
  change (is_ascii 34) with true. cbn [forallb andb]. rewrite andb_true_r.
  induction s as [|c s IH]; [reflexivity|].
  cbn [flat_map]. now rewrite forallb_app, escape_char_ascii, IH.
Qed.

Lemma digit_ascii (c : N) : is_digit09 c = true -> is_ascii c = true.
Proof.
  unfold is_digit09, is_ascii. intros H. apply andb_true_iff in H as [_ H].
  apply N.leb_le in H. apply N.ltb_lt. lia.
Qed.

Lemma digits_ascii (ds : str) :
  forallb is_digit09 ds = true -> forallb is_ascii ds = true.
Proof.
  induction ds as [|c ds IH]; [reflexivity|]. cbn [forallb]. intros H.
  apply andb_true_iff in H as [Hc H]. now rewrite (digit_ascii c Hc), IH.
Qed.

Lemma repr_int_ascii (z : Z) : forallb is_ascii (repr_int z) = true.
Proof.
  destruct (str_of_N_spec (Z.abs_N z)) as (d & ds & E & Hd & Hds & _).
  assert (H : forallb is_ascii (str_of_N (Z.abs_N z)) = true).
  { rewrite E. cbn [forallb]. now rewrite (digit_ascii d Hd), digits_ascii. }
  unfold repr_int. destruct (z <? 0)%Z; [|exact H].
  cbn [forallb]. now rewrite H.
Qed.

Lemma newline_indent_ascii (level : nat) :
  forallb is_ascii (newline_indent level) = true.
Proof.
  unfold newline_indent. cbn [forallb]. change (is_ascii 10) with true.
  cbn [andb]. induction (2 * level)%nat as [|n IH]; [reflexivity|exact IH].
Qed.

Lemma join_items_ascii (sep : str) (ts : list (list N)) :
  forallb is_ascii sep = true -> Forall (fun t => forallb is_ascii t = true) ts ->
  forallb is_ascii (join_items sep ts) = true.
Proof.
  intros Hsep. induction 1 as [|t ts Ht Hts IH]; [reflexivity|].
  destruct ts as [|t' ts]; [exact Ht|].
  rewrite join_items_cons, !forallb_app, Ht, Hsep. exact IH.
Qed.

Lemma traverse_Forall {A B : Type} (f : A -> option B) (P : B -> Prop) (l : list A) :
  Forall (fun x => forall t, f x = Some t -> P t) l ->
  forall ts, traverse f l = Some ts -> Forall P ts.
Proof.
  induction 1 as [|x l Hx _ IH]; intros ts Hts.
  - injection Hts as <-. constructor.
  - destruct (traverse_cons_inv _ _ _ _ Hts) as (t & ts' & -> & Et & Ets).
    constructor; auto.
Qed.

Lemma bracketed_ascii (o c : N) (level : nat) (ts : list (list N)) :
  is_ascii o = true -> is_ascii c = true ->
  Forall (fun t => forallb is_ascii t = true) ts ->
  forallb is_ascii
    (o :: newline_indent (S level)
       ++ join_items (44 :: newline_indent (S level)) ts
       ++ newline_indent level ++ [c]) = true.
Proof.
  intros Ho Hc Hts. cbn [forallb]. rewrite Ho, !forallb_app.
  rewrite !newline_indent_ascii, join_items_ascii; cbn [forallb andb].
  - now rewrite Hc.
  - now rewrite newline_indent_ascii.
  - exact Hts.
Qed.

Lemma iterencode_ascii (v : value) :
  forall level t, iterencode level v = Some t -> forallb is_ascii t = true.
Proof.
  induction v as [|b|z|x| |n|s|l IH|d IH] using value_induction; intros level t Ht.
  - injection Ht as <-. reflexivity.
  - destruct b; injection Ht as <-; reflexivity.
  - injection Ht as <-. apply repr_int_ascii.
  - discriminate.
  - injection Ht as <-. reflexivity.
  - destruct n; injection Ht as <-; reflexivity.
  - injection Ht as <-. apply encode_string_ascii.
  - destruct l as [|x l]; [injection Ht as <-; reflexivity|].
    rewrite iterencode_list in Ht.
    destruct (traverse (iterencode (S level)) (x :: l)) as [ts|] eqn:Ets;
      [|discriminate].
    apply some_inj in Ht. subst t.
    apply bracketed_ascii; try reflexivity.
    apply (traverse_Forall (iterencode (S level)) _ (x :: l)); [|exact Ets].
    eapply Forall_impl; [|exact IH]. intros a Ha t. apply Ha.
  - destruct d as [|kv d]; [injection Ht as <-; reflexivity|].
    rewrite iterencode_dict in Ht.
    destruct (traverse _ (kv :: d)) as [ts|] eqn:Ets; [|discriminate].
    apply some_inj in Ht. subst t.
    apply bracketed_ascii; try reflexivity.
    eapply traverse_Forall; [|exact Ets].
    eapply Forall_impl; [|exact IH]. intros a Ha t Et. cbv beta in Et.
    destruct (iterencode (S level) (snd a)) as [u|] eqn:Eu; [|discriminate].
    injection Et as <-. unfold member_text.
    rewrite !forallb_app, encode_string_ascii, (Ha _ _ Eu). reflexivity.
Qed.

(** X18: line 433.  Whatever the results hold, the text offered for download
    is made of ASCII characters only: every other character of a feedback or
    of a key is written as an escape. *)
Theorem export_is_ascii (v : value) (t : str) :
  json_dumps v = Some t -> forallb is_ascii t = true.
Proof. apply iterencode_ascii. Qed.

Lemma export_is_ascii_witness :
  forallb is_ascii
    (qlit "{
  'market': {
    'score': 70,
    'feedback': 'Caf\u00e9 \ud83d\ude00'
  }
}") = true.
Proof.
  apply (export_is_ascii
           (VDict [(lit "market", Analyzer.result 70 [67; 97; 102; 233; 32; 128512])])).
  vm_compute. reflexivity.
Defined.



End DumpsFacts.

(** ** A response in the requested format is read *)

Module FormatFacts.

Import Json Dumps JsonFacts DumpsFacts Analyzer AnalyzerFacts ObjectFacts.

Local Open Scope N_scope.








End FormatFacts.
